(** * Grid connectivity of sbpy's [Multiblock] (sbpy/grid2d.py)

    A shallow embedding of the connectivity part of [grid2d.py]: the
    boundary accessors, the constructor [Multiblock.__init__] with its
    corner, face, edge, interface and non-interface stages, and the two
    queries [is_interface] and [get_neighbor_boundary].

    Conventions of the embedding.
    - Python exceptions are values of [exn]; a computation that may raise
      has type [result A].  [assert] statements are executed (the
      interpreter runs without [-O]).
    - A 2D numpy array is a shape together with an item function; indices
      given by the program are Python integers ([Z]), negative ones count
      from the end.
    - Node coordinates are floats.  The program only compares them ([==]
      and the lexicographic sort of [np.unique]), so a coordinate is
      represented by its exact rational value ([Qc]); NaN and the
      infinities have no representation here.
    - Side labels are the Python strings ['s'], ['e'], ['n'], ['w'];
      dictionaries keyed by them are [gmap string _]. *)

From Stdlib Require Import QArith Qcanon.
From stdpp Require Import base tactics option list numbers strings sorting gmap fin_maps.

Set Warnings "-clear-no-such-hyp".

Local Open Scope Z_scope.
Local Open Scope string_scope.
Local Open Scope list_scope.

(** ** Exceptions and the error monad *)

(** The exception classes the modelled code can raise.  Every [assert] of
    the source is written without a message expression, so the optional
    message of [AssertionError] is always [None] in this development. *)
Inductive exn : Type :=
  | AssertionError (msg : option string)
  | IndexError
  | KeyError
  | ValueError.

Inductive result (A : Type) : Type :=
  | Ok (a : A)
  | Err (e : exn).
Arguments Ok {A} a.
Arguments Err {A} e.

#[global] Instance result_ret : MRet result := fun A a => Ok a.
#[global] Instance result_bind : MBind result := fun A B f m =>
  match m with
  | Ok a => f a
  | Err e => Err e
  end.
#[global] Instance result_fmap : FMap result := fun A B f m =>
  match m with
  | Ok a => Ok (f a)
  | Err e => Err e
  end.

(** [assert(c)] *)
Definition py_assert (c : bool) : result unit :=
  if c then Ok tt else Err (AssertionError None).

(** A [for] loop over [l] threading the state [s]. *)
Fixpoint foldM {S X : Type} (f : S → X → result S) (l : list X) (s : S)
  : result S :=
  match l with
  | [] => Ok s
  | x :: l' => s' ← f s x; foldM f l' s'
  end.

(** A list built by a loop whose body may raise. *)
Fixpoint forM {X Y : Type} (f : X → result Y) (l : list X) : result (list Y) :=
  match l with
  | [] => Ok []
  | x :: l' => y ← f x; ys ← forM f l'; Ok (y :: ys)
  end.

(** ** Python sequences and dictionaries *)

(** Index normalisation shared by lists and numpy axes: [0 <= i < n] is
    kept, [-n <= i < 0] counts from the end, anything else raises. *)
Definition norm_index (n : nat) (i : Z) : result nat :=
  if bool_decide (0 ≤ i < Z.of_nat n) then Ok (Z.to_nat i)
  else if bool_decide (- Z.of_nat n ≤ i < 0) then Ok (Z.to_nat (Z.of_nat n + i))
  else Err IndexError.

(** [l[i]] *)
Definition py_getitem {A : Type} (l : list A) (i : Z) : result A :=
  k ← norm_index (length l) i;
  match l !! k with
  | Some a => Ok a
  | None => Err IndexError
  end.

(** [l[i] = f(l[i])], the in-place update of the element at index [i]. *)
Definition py_update {A : Type} (l : list A) (i : Z) (f : A → A)
  : result (list A) :=
  k ← norm_index (length l) i;
  Ok (alter f k l).

(** [d[k]] *)
Definition dict_getitem {V : Type} (d : gmap string V) (k : string) : result V :=
  match d !! k with
  | Some v => Ok v
  | None => Err KeyError
  end.

(** [k in d] *)
Definition dict_contains {V : Type} (d : gmap string V) (k : string) : bool :=
  bool_decide (is_Some (d !! k)).

(** [d.values()] *)
Definition dict_values {V : Type} (d : gmap string V) : list V :=
  (map_to_list d).*2.

(** [enumerate(l)] *)
Definition enumerate {A : Type} (l : list A) : list (nat * A) :=
  zip (seq 0 (length l)) l.

(** [itertools.combinations(l, 2)] *)
Fixpoint combinations2 {A : Type} (l : list A) : list (A * A) :=
  match l with
  | [] => []
  | x :: l' => (pair x <$> l') ++ combinations2 l'
  end.

(** [itertools.product(l, repeat=2)] *)
Definition product2 {A : Type} (l : list A) : list (A * A) :=
  x ← l; pair x <$> l.

(** ** 2D numpy arrays *)

Record ndarray (A : Type) : Type := mk_ndarray {
  shape : nat * nat;
  item : nat → nat → A
}.
Arguments mk_ndarray {A} shape item.
Arguments shape {A} _.
Arguments item {A} _ _ _.

(** [F[i,j]] *)
Definition np_getitem {A : Type} (F : ndarray A) (i j : Z) : result A :=
  r ← norm_index (shape F).1 i;
  c ← norm_index (shape F).2 j;
  Ok (item F r c).

(** [F[i,:]] *)
Definition np_row {A : Type} (F : ndarray A) (i : Z) : result (list A) :=
  r ← norm_index (shape F).1 i;
  Ok (item F r <$> seq 0 (shape F).2).

(** [F[:,j]] *)
Definition np_col {A : Type} (F : ndarray A) (j : Z) : result (list A) :=
  c ← norm_index (shape F).2 j;
  Ok ((λ r, item F r c) <$> seq 0 (shape F).1).

(** [np.flip] of a 1D array *)
Definition np_flip {A : Type} (a : list A) : list A := reverse a.

(** The array whose rows are the given lists (used for concrete grids). *)
Definition array_of_rows {A : Type} (d : A) (rows : list (list A)) : ndarray A :=
  mk_ndarray (length rows, length (default [] (head rows)))
             (λ i j, default d (r ← rows !! i; r !! j)).

(** ** Module-level functions of grid2d.py *)

Definition sides : list string := ["s"; "e"; "n"; "w"].

Definition is_side (side : string) : bool :=
  bool_decide (side ∈ ["w"; "e"; "s"; "n"]).

(** [get_function_boundary(F, side)].  Under the assertion the [elif]
    chain is exhaustive; the last branch stands for falling off its end
    and is never reached (lemma [get_function_boundary_cases]). *)
Definition get_function_boundary {A : Type} (F : ndarray A) (side : string)
  : result (list A) :=
  _ ← py_assert (is_side side);
  if String.eqb side "w" then np_row F 0
  else if String.eqb side "e" then np_row F (-1)
  else if String.eqb side "s" then np_col F 0
  else if String.eqb side "n" then np_col F (-1)
  else Ok [].

(** [get_corners(X, Y)]: the four corner points, starting at local index
    (0,0) and continuing counter-clockwise; one row [(x, y)] per corner. *)
Definition get_corners {A : Type} (X Y : ndarray A) : result (list (A * A)) :=
  x0 ← np_getitem X 0 0;       y0 ← np_getitem Y 0 0;
  x1 ← np_getitem X (-1) 0;    y1 ← np_getitem Y (-1) 0;
  x2 ← np_getitem X (-1) (-1); y2 ← np_getitem Y (-1) (-1);
  x3 ← np_getitem X 0 (-1);    y3 ← np_getitem Y 0 (-1);
  Ok [(x0, y0); (x1, y1); (x2, y2); (x3, y3)].

(** ** Array elements: equality and order

    The two element types the constructor compares and sorts: float
    coordinates and integer indices. *)
Class Scalar (A : Type) : Type := {
  sc_eqb : A → A → bool;
  sc_cmp : A → A → comparison
}.

Class ScalarLaws (A : Type) `{Scalar A} : Prop := {
  sc_eqb_eq : ∀ x y : A, sc_eqb x y = true ↔ x = y;
  sc_cmp_eq : ∀ x y : A, sc_cmp x y = Eq ↔ x = y;
  sc_cmp_antisym : ∀ x y : A, sc_cmp y x = CompOpp (sc_cmp x y);
  sc_cmp_trans : ∀ x y z : A, sc_cmp x y = Lt → sc_cmp y z = Lt → sc_cmp x z = Lt
}.

#[global] Instance nat_scalar : Scalar nat :=
  {| sc_eqb := Nat.eqb; sc_cmp := Nat.compare |}.
#[global] Instance Qc_scalar : Scalar Qc :=
  {| sc_eqb := λ x y : Qc, Qeq_bool x y; sc_cmp := λ x y : Qc, Qccompare x y |}.

(** Rows of a two-column array. *)
Definition row_eqb {A : Type} `{Scalar A} (r1 r2 : A * A) : bool :=
  sc_eqb r1.1 r2.1 && sc_eqb r1.2 r2.2.

Definition row_cmp {A : Type} `{Scalar A} (r1 r2 : A * A) : comparison :=
  match sc_cmp r1.1 r2.1 with
  | Eq => sc_cmp r1.2 r2.2
  | c => c
  end.

(** [np.unique(rows, axis=0)]: the distinct rows in ascending
    lexicographic order. *)
Fixpoint insert_unique {A : Type} `{Scalar A} (r : A * A) (l : list (A * A))
  : list (A * A) :=
  match l with
  | [] => [r]
  | r' :: l' =>
      match row_cmp r r' with
      | Lt => r :: r' :: l'
      | Eq => r' :: l'
      | Gt => r' :: insert_unique r l'
      end
  end.

Definition np_unique {A : Type} `{Scalar A} (rows : list (A * A)) : list (A * A) :=
  foldr insert_unique [] rows.

(** [np.concatenate(arrays)] along axis 0; numpy refuses an empty list. *)
Definition np_concatenate {A : Type} (arrays : list (list A)) : result (list A) :=
  match arrays with
  | [] => Err ValueError
  | _ => Ok (mjoin arrays)
  end.

(** [np.argwhere(np.all(r == rows, axis=1))]: the indices of the rows equal
    to [r]. *)
Definition np_argwhere_row {A : Type} `{Scalar A} (r : A * A) (rows : list (A * A))
  : list nat :=
  (filter (λ ir, row_eqb r ir.2 = true) (enumerate rows)).*1.

(** [a.item()]: the single element of an array of size one. *)
Definition np_item (a : list nat) : result nat :=
  match a with
  | [i] => Ok i
  | _ => Err ValueError
  end.

(** [np.array(sorted([a, b]))] *)
Definition sorted2 (a b : nat) : nat * nat :=
  if (a <=? b)%nat then (a, b) else (b, a).

(** ** The class [Multiblock] *)

Definition Block : Type := ndarray Qc * ndarray Qc.

Record Multiblock : Type := mk_Multiblock {
  blocks : list Block;
  num_blocks : nat;
  shapes : list (nat * nat);
  corners : list (Qc * Qc);
  faces : list (list nat);
  edges : list (nat * nat);
  face_edges : list (gmap string nat);
  interfaces : list (gmap string (nat * string));
  non_interfaces : list (list string)
}.

(** [np.array(sorted([face[k], face[(k+1)%4]]))] *)
Definition face_edge (face : list nat) (k : nat) : result (nat * nat) :=
  a ← py_getitem face (Z.of_nat k);
  b ← py_getitem face (Z.of_nat ((k + 1) mod 4));
  Ok (sorted2 a b).

(** Lines 191-199: the interface search. *)
Definition set_interface (ifs : list (gmap string (nat * string)))
    (i : nat) (side : string) (partner : nat * string)
  : result (list (gmap string (nat * string))) :=
  py_update ifs (Z.of_nat i) (insert side partner).

Definition match_sides (i : nat) (edges1 : gmap string nat)
    (j : nat) (edges2 : gmap string nat)
    (ifs : list (gmap string (nat * string))) (ss : string * string)
  : result (list (gmap string (nat * string))) :=
  a ← dict_getitem edges1 ss.1;
  b ← dict_getitem edges2 ss.2;
  if (a =? b)%nat then
    ifs' ← set_interface ifs i ss.1 (j, ss.2);
    set_interface ifs' j ss.2 (i, ss.1)
  else Ok ifs.

Definition find_interfaces (num_blocks : nat) (face_edges : list (gmap string nat))
  : result (list (gmap string (nat * string))) :=
  foldM (λ ifs p, foldM (match_sides p.1.1 p.1.2 p.2.1 p.2.2) (product2 sides) ifs)
        (combinations2 (enumerate face_edges))
        (replicate num_blocks ∅).

(** Lines 201-210: the non-interface search.  [other_edges.flatten()] holds
    the edge indices of every other block (converted to float, which is
    exact for indices of this size). *)
Definition other_edges (i : nat) (face_edges : list (gmap string nat)) : list nat :=
  mjoin ((λ je, dict_values je.2)
           <$> filter (λ je, je.1 ≠ i) (enumerate face_edges)).

Definition find_non_interfaces (face_edges : list (gmap string nat))
  : result (list (list string)) :=
  forM (λ ie,
          let flat := other_edges ie.1 face_edges in
          foldM (λ acc side,
                   e ← dict_getitem ie.2 side;
                   if bool_decide (e ∈ flat) then Ok acc else Ok (acc ++ [side]))
                sides [])
       (enumerate face_edges).

(** The stages of [Multiblock.__init__], in source order: the shape
    assertions (lines 145-146), the face of a block in terms of the unique
    corners (lines 165-171), the four edges of a face (lines 176-178) and
    the face-edge dictionary of a face (lines 184-189). *)
Definition check_shapes (blocks : list Block) : result unit :=
  foldM (λ _ b, py_assert (bool_decide (shape b.1 = shape b.2))) blocks tt.

(** [np.argwhere(np.all(r == rows, axis=1)).item()] *)
Definition row_index {A : Type} `{Scalar A} (r : A * A) (rows : list (A * A))
  : result nat :=
  np_item (np_argwhere_row r rows).

Definition block_face (corners : list (Qc * Qc)) (b : Block) : result (list nat) :=
  block_corners ← get_corners b.1 b.2;
  forM (λ c, row_index c corners) block_corners.

Definition face_edge_rows (face : list nat) : result (list (nat * nat)) :=
  forM (face_edge face) (seq 0 4).

Definition face_edge_dict (edges : list (nat * nat)) (face : list nat)
  : result (gmap string nat) :=
  foldM (λ d ks,
           edge ← face_edge face ks.1;
           idx ← row_index edge edges;
           Ok (<[ks.2 := idx]> d))
        (enumerate sides) ∅.

(** [Multiblock.__init__(self, blocks)] *)
Definition Multiblock_init (blocks : list Block) : result Multiblock :=
  _ ← check_shapes blocks;
  let num_blocks := length blocks in
  let shapes := (λ b : Block, ((shape b.1).1, (shape b.1).2)) <$> blocks in
  cs ← forM (λ b : Block, get_corners b.1 b.2) blocks;
  allc ← np_concatenate cs;
  let corners := np_unique allc in
  faces ← forM (block_face corners) blocks;
  es ← forM face_edge_rows faces;
  let edges := np_unique (mjoin es) in
  face_edges ← forM (face_edge_dict edges) faces;
  interfaces ← find_interfaces num_blocks face_edges;
  non_interfaces ← find_non_interfaces face_edges;
  Ok (mk_Multiblock blocks num_blocks shapes corners faces edges face_edges
                    interfaces non_interfaces).

(** [Multiblock.is_interface(self, block_idx, side)] *)
Definition is_interface (self : Multiblock) (block_idx : Z) (side : string)
  : result bool :=
  d ← py_getitem (interfaces self) block_idx;
  if dict_contains d side then Ok true else Ok false.

(** The list literal of lines 290-293. *)
Definition flip_pairs : list (string * string) :=
  [("s","e"); ("s","s"); ("e","s"); ("e","e");
   ("n","w"); ("n","n"); ("w","n"); ("w","w")].

(** [Multiblock.get_neighbor_boundary(self, F, block_idx, side)] *)
Definition get_neighbor_boundary {A : Type} (self : Multiblock) (F : ndarray A)
    (block_idx : Z) (side : string) : result (list A) :=
  ok ← is_interface self block_idx side;
  _ ← py_assert ok;
  d ← py_getitem (interfaces self) block_idx;
  nb ← dict_getitem d side;
  let neighbor_side := nb.2 in
  let flip := bool_decide ((neighbor_side, side) ∈ flip_pairs) in
  if flip then np_flip <$> get_function_boundary F neighbor_side
  else get_function_boundary F neighbor_side.

(** ** Vocabulary of the statements *)

(** The strict order [np.unique] sorts rows by. *)
Definition row_lt {A : Type} `{Scalar A} (r1 r2 : A * A) : Prop :=
  row_cmp r1 r2 = Lt.

(** The edge index of side [s] of block [i], and the stored partner of
    side [s] of block [i]. *)
Definition edge_at (fe : list (gmap string nat)) (i : nat) (s : string)
  : option nat :=
  d ← fe !! i; d !! s.

Definition interface_at (ifs : list (gmap string (nat * string))) (i : nat)
    (s : string) : option (nat * string) :=
  d ← ifs !! i; d !! s.

(** A face-edge dictionary has exactly the four sides as keys. *)
Definition face_dict (d : gmap string nat) : Prop :=
  ∀ s, is_Some (d !! s) ↔ s ∈ sides.

(** What the search maintains: a stored partner always lies on another
    block and has the same edge ([interfaces_sound]); every matching pair
    visited so far is stored on both sides ([interfaces_complete] once all
    pairs are visited). *)
Definition interfaces_sound (fe : list (gmap string nat))
    (ifs : list (gmap string (nat * string))) : Prop :=
  ∀ i s1 j s2, interface_at ifs i s1 = Some (j, s2) →
    i ≠ j ∧ ∃ e, edge_at fe i s1 = Some e ∧ edge_at fe j s2 = Some e.

Definition interfaces_complete (fe : list (gmap string nat))
    (ifs : list (gmap string (nat * string))) : Prop :=
  ∀ i s1 j s2 e, i ≠ j → edge_at fe i s1 = Some e → edge_at fe j s2 = Some e →
    is_Some (interface_at ifs i s1).

(** The pairs of sides the interface search visits, in order, and its loop
    invariant: the map has one dictionary per block, stored partners are
    sound, and every matching pair visited so far is stored on both
    sides. *)
Definition search_step : Type :=
  ((nat * gmap string nat) * (nat * gmap string nat)) * (string * string).

Definition search_steps (fe : list (gmap string nat)) : list search_step :=
  p ← combinations2 (enumerate fe); pair p <$> product2 sides.

Definition visited (pre : list search_step)
    (ifs : list (gmap string (nat * string))) : Prop :=
  ∀ p e, p ∈ pre → p.1.1.2 !! p.2.1 = Some e → p.1.2.2 !! p.2.2 = Some e →
    is_Some (interface_at ifs p.1.1.1 p.2.1) ∧
    is_Some (interface_at ifs p.1.2.1 p.2.2).

Definition search_invariant (fe : list (gmap string nat))
    (pre : list search_step) (ifs : list (gmap string (nat * string))) : Prop :=
  length ifs = length fe ∧ interfaces_sound fe ifs ∧ visited pre ifs.

(** A side is listed as a non-interface exactly when its edge index is
    carried by no side of another block. *)
Definition non_interfaces_spec (fe : list (gmap string nat))
    (nis : list (list string)) : Prop :=
  ∀ i ni, nis !! i = Some ni →
    NoDup ni ∧
    ∀ s, s ∈ ni ↔
         s ∈ sides ∧ ∃ e, edge_at fe i s = Some e ∧
                          ¬ ∃ j s', j ≠ i ∧ edge_at fe j s' = Some e.

(** An array with at least one row and one column. *)
Definition nonempty {A : Type} (F : ndarray A) : Prop :=
  (0 < (shape F).1)%nat ∧ (0 < (shape F).2)%nat.

(** The four corner points of a block with at least one node. *)
Definition corner_points {A : Type} (X Y : ndarray A) : list (A * A) :=
  let lastx := ((shape X).1 - 1, (shape X).2 - 1)%nat in
  let lasty := ((shape Y).1 - 1, (shape Y).2 - 1)%nat in
  [(item X 0 0, item Y 0 0);
   (item X lastx.1 0, item Y lasty.1 0);
   (item X lastx.1 lastx.2, item Y lasty.1 lasty.2);
   (item X 0 lastx.2, item Y 0 lasty.2)].

(** The face and the face-edge dictionary of one block, given the global
    corner and edge arrays. *)
Definition edge_dict (es ee en ew : nat) : gmap string nat :=
  <["w" := ew]> (<["n" := en]> (<["e" := ee]> (<["s" := es]> ∅))).

Definition block_connectivity (corners : list (Qc * Qc)) (edges : list (nat * nat))
    (b : Block) (face : list nat) (d : gmap string nat) : Prop :=
  ∃ c0 c1 c2 c3 f0 f1 f2 f3 es ee en ew,
    get_corners b.1 b.2 = Ok [c0; c1; c2; c3] ∧
    face = [f0; f1; f2; f3] ∧
    row_index c0 corners = Ok f0 ∧ row_index c1 corners = Ok f1 ∧
    row_index c2 corners = Ok f2 ∧ row_index c3 corners = Ok f3 ∧
    row_index (sorted2 f0 f1) edges = Ok es ∧
    row_index (sorted2 f1 f2) edges = Ok ee ∧
    row_index (sorted2 f2 f3) edges = Ok en ∧
    row_index (sorted2 f3 f0) edges = Ok ew ∧
    d = edge_dict es ee en ew.

(** A block the constructor can process: both coordinate arrays have the
    same shape and at least one node in each direction. *)
Definition well_shaped (b : Block) : Prop :=
  shape b.1 = shape b.2 ∧ nonempty b.1.

(** [block_idx] is accepted by [self.interfaces[block_idx]]: Python takes
    indices from [-len] up to [len - 1]. *)
Definition valid_block_index (self : Multiblock) (block_idx : Z) : Prop :=
  - Z.of_nat (length (interfaces self)) ≤ block_idx
    < Z.of_nat (length (interfaces self)).

(** [(block_idx, side)] is a registered interface with the given partner. *)
Definition registered (self : Multiblock) (block_idx : Z) (side : string)
    (partner : nat * string) : Prop :=
  ∃ d, py_getitem (interfaces self) block_idx = Ok d ∧ d !! side = Some partner.

(** The boundary of a grid function along a side, in the words of the
    module docstring: West = F[0,:] (first row), East = F[-1,:] (last row),
    South = F[:,0] (first column), North = F[:,-1] (last column). *)
Definition boundary_along {A : Type} (F : ndarray A) (side : string) : list A :=
  let nx := (shape F).1 in
  let ny := (shape F).2 in
  if decide (side = "w") then (λ j, item F 0 j) <$> seq 0 ny
  else if decide (side = "e") then (λ j, item F (nx - 1) j) <$> seq 0 ny
  else if decide (side = "s") then (λ i, item F i 0) <$> seq 0 nx
  else if decide (side = "n") then (λ i, item F i (ny - 1)) <$> seq 0 nx
  else [].

(** Lines 289-299 applied to a boundary array that is already extracted:
    reverse it when the pair is in the list, leave it otherwise. *)
Definition reorient {A : Type} (neighbor_side side : string) (b : list A) : list A :=
  if bool_decide ((neighbor_side, side) ∈ flip_pairs) then np_flip b else b.

(** The [(block, side)] occurrences of edge index [e], and the edge
    indices that occur at all. *)
Definition occurrences (fe : list (gmap string nat)) (e : nat)
  : list (nat * string) :=
  filter (λ bs, edge_at fe bs.1 bs.2 = Some e)
         (i ← seq 0 (length fe); pair i <$> sides).

Definition edge_values (fe : list (gmap string nat)) : list nat :=
  d ← fe; dict_values d.

(** Every edge is shared by at most two [(block, side)] occurrences. *)
Definition manifold (fe : list (gmap string nat)) : Prop :=
  Forall (λ e, (length (occurrences fe e) ≤ 2)%nat) (edge_values fe).

#[global] Instance manifold_dec fe : Decision (manifold fe).
Proof. unfold manifold. apply _. Defined.

(** The two corner points of a side, in the order of lines 186-187: side
    number [k] of ['s','e','n','w'] joins corners [k] and [(k+1) % 4]. *)
Definition side_corners {A : Type} (cs : list (A * A)) (side : string)
  : option ((A * A) * (A * A)) :=
  match cs with
  | [c0; c1; c2; c3] =>
      if decide (side = "s") then Some (c0, c1)
      else if decide (side = "e") then Some (c1, c2)
      else if decide (side = "n") then Some (c2, c3)
      else if decide (side = "w") then Some (c3, c0)
      else None
  | _ => None
  end.

(** Two sides join the same two points, in either order. *)
Definition same_corner_pair {A : Type} (p q : (A * A) * (A * A)) : Prop :=
  p = q ∨ p = (q.2, q.1).

(** ** The remaining functions of grid2d.py *)

(** [get_boundary(X, Y, side)]; as in [get_function_boundary] the last
    branch stands for falling off the [elif] chain and is never reached. *)
Definition get_boundary {A : Type} (X Y : ndarray A) (side : string)
  : result (list A * list A) :=
  _ ← py_assert (is_side side);
  if String.eqb side "w" then x ← np_row X 0; y ← np_row Y 0; Ok (x, y)
  else if String.eqb side "e" then x ← np_row X (-1); y ← np_row Y (-1); Ok (x, y)
  else if String.eqb side "s" then x ← np_col X 0; y ← np_col Y 0; Ok (x, y)
  else if String.eqb side "n" then x ← np_col X (-1); y ← np_col Y (-1); Ok (x, y)
  else Ok ([], []).

(** One component of an index tuple: [slice(stop)] or an integer. *)
Inductive np_index : Type :=
  | np_slice (stop : nat)
  | np_int (i : Z).

(** What indexing a 2D array with a pair of such components gives. *)
Inductive np_value (A : Type) : Type :=
  | np_scalar (a : A)
  | np_array1 (a : list A)
  | np_array2 (a : ndarray A).
Arguments np_scalar {A} a.
Arguments np_array1 {A} a.
Arguments np_array2 {A} a.

(** [F[idx]] for [idx] a pair of index components; [slice(stop)] selects
    the positions [0 .. min(stop, n) - 1] of an axis of extent [n]. *)
Definition np_getitem_tuple {A : Type} (F : ndarray A) (idx : np_index * np_index)
  : result (np_value A) :=
  match idx with
  | (np_int i, np_int j) => np_scalar <$> np_getitem F i j
  | (np_int i, np_slice m) =>
      r ← norm_index (shape F).1 i;
      Ok (np_array1 (item F r <$> seq 0 (Nat.min m (shape F).2)))
  | (np_slice n, np_int j) =>
      c ← norm_index (shape F).2 j;
      Ok (np_array1 ((λ r, item F r c) <$> seq 0 (Nat.min n (shape F).1)))
  | (np_slice n, np_slice m) =>
      Ok (np_array2 (mk_ndarray (Nat.min n (shape F).1, Nat.min m (shape F).2) (item F)))
  end.

(** [get_boundary_slice(F, side)] *)
Definition get_boundary_slice {A : Type} (F : ndarray A) (side : string)
  : result (np_index * np_index) :=
  _ ← py_assert (bool_decide (side ∈ ["s"; "e"; "n"; "w"]));
  let Nx := (shape F).1 in
  let Ny := (shape F).2 in
  let slice_dict : gmap string (np_index * np_index) :=
    <["w" := (np_int 0, np_slice Ny)]>
      (<["n" := (np_slice Nx, np_int (-1))]>
         (<["e" := (np_int (-1), np_slice Ny)]>
            (<["s" := (np_slice Nx, np_int 0)]> ∅))) in
  dict_getitem slice_dict side.

(** [Multiblock.evaluate_function(self, f)] *)
Definition evaluate_function {B : Type} (self : Multiblock)
    (f : ndarray Qc → ndarray Qc → result B) : result (list B) :=
  forM (λ b : Block, f b.1 b.2) (blocks self).

(** [Multiblock.get_blocks(self)] *)
Definition get_blocks (self : Multiblock) : list Block := blocks self.

(** [Multiblock.get_shapes(self)] *)
Definition get_shapes (self : Multiblock) : list (nat * nat) := shapes self.

(** ** Concrete grids used in the examples *)

(** A uniform [nx]-by-[ny] block on [x0, x0 + w] × [y0, y0 + h]. *)
Definition grid_block (nx ny : nat) (x0 w y0 h : Q) : Block :=
  (mk_ndarray (nx, ny)
     (λ i _, Q2Qc (x0 + w * (Z.of_nat i # Pos.of_nat (nx - 1)))),
   mk_ndarray (nx, ny)
     (λ _ j, Q2Qc (y0 + h * (Z.of_nat j # Pos.of_nat (ny - 1))))).

Definition two_blocks : list Block :=
  [grid_block 3 3 0 1 0 1; grid_block 3 3 1 1 0 1].

(** [unwrap] names the object a successful construction returns; where
    construction raises it gives the empty object. *)
Definition empty_Multiblock : Multiblock :=
  mk_Multiblock [] 0 [] [] [] [] [] [] [].

Definition unwrap (r : result Multiblock) : Multiblock :=
  match r with
  | Ok self => self
  | Err _ => empty_Multiblock
  end.

(** Two 3-by-3 blocks sharing the edge x = 1. *)
Definition two_block_grid : Multiblock := unwrap (Multiblock_init two_blocks).

(** A third block, on [1,3] × [0,1], claims the edge x = 1 as well. *)
Definition three_blocks : list Block :=
  [grid_block 3 3 0 1 0 1; grid_block 3 3 1 1 0 1; grid_block 3 3 1 2 0 1].

Definition three_block_grid : Multiblock := unwrap (Multiblock_init three_blocks).

(** A block whose arrays differ in shape: X is 3-by-3, Y is 3-by-2. *)
Definition mismatched_block : Block :=
  ((grid_block 3 3 0 1 0 1).1, (grid_block 3 2 0 1 0 1).2).

(** A 3-by-3 block wrapped in the x-direction: its last row of nodes
    coincides with its first. *)
Definition wrapped_block : Block :=
  (mk_ndarray (3%nat, 3%nat) (λ i _, Q2Qc (inject_Z (Z.of_nat (i mod 2)))),
   mk_ndarray (3%nat, 3%nat) (λ _ j, Q2Qc (inject_Z (Z.of_nat j)))).

(** The wrapped block together with a block on [0,1] × [0,2], whose west
    side joins the same two points, (0,0) and (0,2), as the east and west
    sides of the wrapped block. *)
Definition wrapped_with_neighbor : list Block :=
  [wrapped_block; grid_block 3 3 0 1 0 2].

Definition wrapped_with_neighbor_grid : Multiblock :=
  unwrap (Multiblock_init wrapped_with_neighbor).

(** A grid function on a 3-by-3 block with west boundary [10, 11, 12]. *)
Definition F1 : ndarray Z :=
  array_of_rows 0 [[10; 11; 12]; [20; 21; 22]; [30; 31; 32]].

(** ** Vocabulary and inputs of the further properties *)

#[global] Instance nonempty_dec {A : Type} (F : ndarray A) : Decision (nonempty F).
Proof. unfold nonempty. apply _. Defined.

(** The sides whose boundary array runs in the counter-clockwise sense of
    the corner order: South (corner 0 to 1) and East (corner 1 to 2).
    North and West arrays run against it (corner 3 to 2, corner 0 to 3). *)
Definition forward_side (side : string) : bool :=
  bool_decide (side ∈ ["s"; "e"]).

(** A block without rows: both arrays have shape (0, 3). *)
Definition empty_block : Block :=
  (mk_ndarray (0%nat, 3%nat) (λ _ _, Q2Qc 0), mk_ndarray (0%nat, 3%nat) (λ _ _, Q2Qc 0)).

(** Block 0 on [0,1] × [0,1] and a neighbour on [1,2] × [0,1] whose
    y-index runs from y = 1 down to y = 0 (a mirrored block). *)
Definition mirrored_blocks : list Block :=
  [grid_block 3 3 0 1 0 1; grid_block 3 3 1 1 1 (-1)].

Definition mirrored_grid : Multiblock := unwrap (Multiblock_init mirrored_blocks).

(** The east side of the block on [0,1] × [0,1]: from (1,0) to (1,1). *)
Definition east_edge : (Qc * Qc) * (Qc * Qc) :=
  ((Q2Qc (0 + 1 * (2 # 2)), Q2Qc (0 + 1 * (0 # 2))),
   (Q2Qc (0 + 1 * (2 # 2)), Q2Qc (0 + 1 * (2 # 2)))).

(** ** The error monad: inversion and loop invariants *)

Lemma bind_Ok {A B : Type} (m : result A) (f : A → result B) (b : B) :
  m ≫= f = Ok b ↔ ∃ a, m = Ok a ∧ f a = Ok b.
Proof.
  destruct m as [a|e]; simpl; split.
  - eauto.
  - by intros (a' & [= <-] & ?).
  - done.
  - by intros (? & ? & ?).
Qed.

Lemma fmap_Ok {A B : Type} (m : result A) (f : A → B) (b : B) :
  f <$> m = Ok b ↔ ∃ a, m = Ok a ∧ b = f a.
Proof.
  destruct m as [a|e]; simpl; split.
  - intros [= <-]. eauto.
  - by intros (a' & [= <-] & ->).
  - done.
  - by intros (? & ? & ?).
Qed.

Lemma py_assert_Ok (c : bool) (u : unit) : py_assert c = Ok u ↔ c = true.
Proof. destruct c, u; simpl; split; done. Qed.

Ltac inv_ok :=
  repeat match goal with
    | H : _ ≫= _ = Ok _ |- _ =>
        apply bind_Ok in H; destruct H as (? & ? & H)
    | H : _ <$> _ = Ok _ |- _ =>
        apply fmap_Ok in H; destruct H as (? & ? & H)
    | H : py_assert _ = Ok _ |- _ => apply py_assert_Ok in H
    | H : Ok _ = Ok _ |- _ => injection H as H
    | H : Err _ = Ok _ |- _ => discriminate H
    end.

Lemma foldM_app {S X : Type} (f : S → X → result S) (l1 l2 : list X) (s : S) :
  foldM f (l1 ++ l2) s = foldM f l1 s ≫= foldM f l2.
Proof.
  revert s. induction l1 as [|x l1 IH]; intros s; simpl; [done|].
  destruct (f s x) as [s'|e]; simpl; [apply IH | done].
Qed.

(** A nested pair of loops is one loop over the pairs it visits. *)
Lemma foldM_nested {S X Y : Type} (g : X → S → Y → result S) (h : X → list Y)
    (l : list X) (s : S) :
  foldM (λ s x, foldM (g x) (h x) s) l s =
  foldM (λ s xy, g xy.1 s xy.2) (x ← l; pair x <$> h x) s.
Proof.
  revert s. induction l as [|x l IH]; intros s; [done|].
  simpl. rewrite foldM_app.
  assert (Hin : ∀ t, foldM (g x) (h x) t
                     = foldM (λ s xy, g xy.1 s xy.2) (pair x <$> h x) t).
  { induction (h x) as [|y ys IHy]; intros t; simpl; [done|].
    destruct (g x t y); simpl; [apply IHy | done]. }
  rewrite Hin. destruct (foldM _ (pair x <$> h x) s); simpl; [apply IH | done].
Qed.

(** Invariant rule for a loop: the invariant may mention the elements
    visited so far. *)
Lemma foldM_invariant_from {S X : Type} (f : S → X → result S)
    (I : list X → S → Prop) (l0 l pre : list X) (s : S) :
  (∀ pre x s, x ∈ l0 → I pre s → ∃ s', f s x = Ok s' ∧ I (pre ++ [x]) s') →
  l ⊆ l0 → I pre s →
  ∃ s', foldM f l s = Ok s' ∧ I (pre ++ l) s'.
Proof.
  intros Hstep. revert pre s.
  induction l as [|x l IH]; intros pre s Hsub HI.
  - exists s. by rewrite app_nil_r.
  - destruct (Hstep pre x s) as (s1 & Hs1 & HI1); [set_solver|done|].
    destruct (IH (pre ++ [x]) s1) as (s' & Hs' & HI'); [set_solver|done|].
    exists s'. simpl. rewrite Hs1. simpl. split; [done|].
    by rewrite <- app_assoc in HI'.
Qed.

Lemma foldM_invariant {S X : Type} (f : S → X → result S) (I : list X → S → Prop)
    (l : list X) (s0 : S) :
  I [] s0 →
  (∀ pre x s, x ∈ l → I pre s → ∃ s', f s x = Ok s' ∧ I (pre ++ [x]) s') →
  ∃ s', foldM f l s0 = Ok s' ∧ I l s'.
Proof.
  intros H0 Hstep.
  by apply (foldM_invariant_from f I l l [] s0).
Qed.

Lemma forM_Ok {X Y : Type} (f : X → result Y) (l : list X) (ys : list Y) :
  forM f l = Ok ys ↔ Forall2 (λ x y, f x = Ok y) l ys.
Proof.
  revert ys. induction l as [|x l IH]; intros ys; simpl.
  - split; [intros [= <-]; constructor | by inversion 1].
  - rewrite bind_Ok. split.
    + intros (y & Hy & H). apply bind_Ok in H as (ys' & Hys & [= <-]).
      constructor; [done|]. by apply IH.
    + inversion 1 as [|? y ? ys' Hy Hys]; subst. exists y. split; [done|].
      apply bind_Ok. exists ys'. split; [by apply IH | done].
Qed.

Lemma forM_total {X Y : Type} (f : X → result Y) (l : list X) :
  (∀ x, x ∈ l → ∃ y, f x = Ok y) → ∃ ys, forM f l = Ok ys.
Proof.
  induction l as [|x l IH]; intros H; simpl; [by eexists|].
  destruct (H x) as (y & ->); [set_solver|].
  destruct IH as (ys & ->); [intros; apply H; set_solver|].
  by eexists.
Qed.

(** ** Indexing *)

Lemma norm_index_nat (n k : nat) :
  (k < n)%nat → norm_index n (Z.of_nat k) = Ok k.
Proof.
  intros Hk. unfold norm_index.
  rewrite bool_decide_eq_true_2 by lia. by rewrite Nat2Z.id.
Qed.

Lemma norm_index_Ok (n : nat) (i : Z) (k : nat) :
  norm_index n i = Ok k ↔
  (0 ≤ i < Z.of_nat n ∧ k = Z.to_nat i) ∨
  (- Z.of_nat n ≤ i < 0 ∧ k = Z.to_nat (Z.of_nat n + i)).
Proof.
  unfold norm_index. repeat case_bool_decide; split;
    try (intros [= <-]); try (intros [[? ->]|[? ->]]); try lia; auto; done.
Qed.

Lemma norm_index_lt (n : nat) (i : Z) (k : nat) :
  norm_index n i = Ok k → (k < n)%nat.
Proof. rewrite norm_index_Ok. lia. Qed.

Lemma norm_index_Err (n : nat) (i : Z) (e : exn) :
  norm_index n i = Err e → e = IndexError ∧ ¬ (- Z.of_nat n ≤ i < Z.of_nat n).
Proof.
  unfold norm_index. repeat case_bool_decide; try done.
  intros [= <-]. split; [done | lia].
Qed.

Lemma py_getitem_nat {A : Type} (l : list A) (k : nat) (a : A) :
  l !! k = Some a → py_getitem l (Z.of_nat k) = Ok a.
Proof.
  intros H. unfold py_getitem.
  rewrite norm_index_nat by (by eapply lookup_lt_Some). simpl. by rewrite H.
Qed.

Lemma py_getitem_Ok {A : Type} (l : list A) (i : Z) (a : A) :
  py_getitem l i = Ok a ↔ ∃ k, norm_index (length l) i = Ok k ∧ l !! k = Some a.
Proof.
  unfold py_getitem. rewrite bind_Ok. split; intros (k & Hk & H); exists k.
  - split; [done|]. destruct (l !! k); by inv_ok; subst.
  - split; [done|]. by rewrite H.
Qed.

Lemma py_getitem_Err {A : Type} (l : list A) (i : Z) (e : exn) :
  py_getitem l i = Err e →
  e = IndexError ∧ ¬ (- Z.of_nat (length l) ≤ i < Z.of_nat (length l)).
Proof.
  unfold py_getitem. destruct (norm_index (length l) i) as [k|e'] eqn:Hk; simpl.
  - apply norm_index_lt in Hk. apply lookup_lt_is_Some in Hk as [a ->]. done.
  - intros [= <-]. by apply norm_index_Err.
Qed.

Lemma dict_getitem_Some {V : Type} (d : gmap string V) (k : string) (v : V) :
  d !! k = Some v → dict_getitem d k = Ok v.
Proof. intros H. unfold dict_getitem. by rewrite H. Qed.

Lemma py_update_nat {A : Type} (l : list A) (k : nat) (f : A → A) :
  (k < length l)%nat → py_update l (Z.of_nat k) f = Ok (alter f k l).
Proof. intros H. unfold py_update. by rewrite norm_index_nat. Qed.

(** ** [enumerate], [combinations] and [product] *)

Lemma lookup_enumerate_from {A : Type} (l : list A) (k i : nat) (p : nat * A) :
  zip (seq k (length l)) l !! i = Some p ↔ p.1 = (k + i)%nat ∧ l !! i = Some p.2.
Proof.
  destruct p as [j x]. rewrite lookup_zip_with_Some. simpl. split.
  - intros (j' & x' & [= <- <-] & [-> _]%lookup_seq & Hx). done.
  - intros [-> Hx]. exists (k + i)%nat, x. split_and!; [done| |done].
    apply lookup_seq. split; [done|]. by eapply lookup_lt_Some.
Qed.

Lemma elem_of_enumerate {A : Type} (l : list A) (i : nat) (x : A) :
  (i, x) ∈ enumerate l ↔ l !! i = Some x.
Proof.
  unfold enumerate. rewrite list_elem_of_lookup. split.
  - intros (n & [Hi Hx]%lookup_enumerate_from). simpl in *. by subst.
  - intros Hx. exists i. by apply lookup_enumerate_from.
Qed.

Lemma length_enumerate {A : Type} (l : list A) : length (enumerate l) = length l.
Proof. unfold enumerate. rewrite length_zip_with, length_seq. lia. Qed.

Lemma lookup_enumerate {A : Type} (l : list A) (i : nat) (p : nat * A) :
  enumerate l !! i = Some p ↔ p.1 = i ∧ l !! i = Some p.2.
Proof. unfold enumerate. by rewrite lookup_enumerate_from. Qed.

Lemma elem_of_combinations2 {A : Type} (l : list A) (a b : A) :
  (a, b) ∈ combinations2 l ↔
  ∃ i j, (i < j)%nat ∧ l !! i = Some a ∧ l !! j = Some b.
Proof.
  induction l as [|x l IH]; simpl.
  - split; [by intros ?%elem_of_nil | by intros (? & ? & ? & ? & ?)].
  - rewrite elem_of_app, list_elem_of_fmap, IH. split.
    + intros [(y & [= -> ->] & [n Hn]%list_elem_of_lookup_1)
             |(i & j & Hij & Hi & Hj)].
      * exists 0%nat, (S n). split_and!; [lia|done|done].
      * exists (S i), (S j). split_and!; [lia|done|done].
    + intros (i & j & Hij & Hi & Hj). destruct j as [|j]; [lia|].
      destruct i as [|i]; simpl in *.
      * left. exists b. split; [congruence|]. by eapply list_elem_of_lookup_2.
      * right. exists i, j. split_and!; [lia|done|done].
Qed.

Lemma elem_of_product2 {A : Type} (l : list A) (a b : A) :
  (a, b) ∈ product2 l ↔ a ∈ l ∧ b ∈ l.
Proof.
  unfold product2. rewrite list_elem_of_bind. split.
  - intros (x & (y & [= -> ->] & Hy)%list_elem_of_fmap & Hx). done.
  - intros [Ha Hb]. exists a. split; [|done]. apply list_elem_of_fmap. eauto.
Qed.

(** ** Element types obey the laws of equality and order *)

#[global] Instance nat_scalar_laws : ScalarLaws nat.
Proof.
  split; simpl.
  - apply Nat.eqb_eq.
  - apply Nat.compare_eq_iff.
  - intros x y. apply Nat.compare_antisym.
  - intros x y z. rewrite !Nat.compare_lt_iff. lia.
Qed.

#[global] Instance Qc_scalar_laws : ScalarLaws Qc.
Proof.
  split; simpl.
  - intros x y. rewrite Qeq_bool_iff. split; [apply Qc_is_canon | by intros ->].
  - intros x y. symmetry. apply Qceq_alt.
  - intros x y. unfold Qccompare. symmetry. apply Qcompare_antisym.
  - intros x y z. rewrite <- !Qclt_alt. apply Qclt_trans.
Qed.

Section rows.
Context {A : Type} `{ScalarLaws A}.
Implicit Types r : A * A.

Lemma row_eqb_eq r1 r2 : row_eqb r1 r2 = true ↔ r1 = r2.
Proof.
  destruct r1 as [a1 b1], r2 as [a2 b2]. unfold row_eqb. simpl.
  rewrite andb_true_iff, !sc_eqb_eq. naive_solver.
Qed.

Lemma row_cmp_eq r1 r2 : row_cmp r1 r2 = Eq ↔ r1 = r2.
Proof.
  destruct r1 as [a1 b1], r2 as [a2 b2]. unfold row_cmp. simpl.
  destruct (sc_cmp a1 a2) eqn:Ha.
  - apply sc_cmp_eq in Ha as ->. rewrite sc_cmp_eq. naive_solver.
  - split; [done|]. intros [= -> ->].
    by rewrite (proj2 (sc_cmp_eq a2 a2)) in Ha.
  - split; [done|]. intros [= -> ->].
    by rewrite (proj2 (sc_cmp_eq a2 a2)) in Ha.
Qed.

Lemma row_cmp_antisym r1 r2 : row_cmp r2 r1 = CompOpp (row_cmp r1 r2).
Proof.
  destruct r1 as [a1 b1], r2 as [a2 b2]. unfold row_cmp. simpl.
  rewrite (sc_cmp_antisym a1 a2).
  destruct (sc_cmp a1 a2); simpl; [apply sc_cmp_antisym | done | done].
Qed.

Lemma row_cmp_trans r1 r2 r3 :
  row_cmp r1 r2 = Lt → row_cmp r2 r3 = Lt → row_cmp r1 r3 = Lt.
Proof.
  destruct r1 as [a1 b1], r2 as [a2 b2], r3 as [a3 b3]. unfold row_cmp. simpl.
  destruct (sc_cmp a1 a2) eqn:H12; [| |done].
  - apply sc_cmp_eq in H12 as ->. intros Hb.
    destruct (sc_cmp a2 a3); [|done|done]. intros. by eapply sc_cmp_trans.
  - intros _. destruct (sc_cmp a2 a3) eqn:H23; [| |done].
    + apply sc_cmp_eq in H23 as <-. by rewrite H12.
    + by rewrite (sc_cmp_trans _ _ _ H12 H23).
Qed.

Lemma row_lt_irrefl r : ¬ row_lt r r.
Proof. unfold row_lt. by rewrite (proj2 (row_cmp_eq r r)). Qed.

(** *** [np.unique] *)

Lemma elem_of_insert_unique r x l :
  x ∈ insert_unique r l ↔ x = r ∨ x ∈ l.
Proof.
  induction l as [|r' l IH]; simpl; [set_solver|].
  destruct (row_cmp r r') eqn:Hc.
  - apply row_cmp_eq in Hc as ->. set_solver.
  - set_solver.
  - set_solver.
Qed.

Lemma insert_unique_sorted r l :
  StronglySorted row_lt l → StronglySorted row_lt (insert_unique r l).
Proof.
  induction l as [|r' l IH]; simpl; intros Hs.
  - repeat constructor.
  - apply StronglySorted_cons in Hs as [Hall Hs].
    destruct (row_cmp r r') eqn:Hc.
    + by apply StronglySorted_cons.
    + apply StronglySorted_cons. split; [|by apply StronglySorted_cons].
      constructor; [done|]. eapply Forall_impl; [done|].
      intros y Hy. by eapply row_cmp_trans.
    + apply StronglySorted_cons. split; [|by apply IH].
      apply Forall_forall. intros y [->|Hy]%elem_of_insert_unique.
      * unfold row_lt. by rewrite row_cmp_antisym, Hc.
      * by eapply Forall_forall in Hall.
Qed.

Lemma elem_of_np_unique x rows : x ∈ np_unique rows ↔ x ∈ rows.
Proof.
  induction rows as [|r rows IH]; simpl; [done|].
  rewrite elem_of_insert_unique, IH. set_solver.
Qed.

Lemma np_unique_sorted rows : StronglySorted row_lt (np_unique rows).
Proof.
  induction rows as [|r rows IH]; simpl; [constructor|].
  by apply insert_unique_sorted.
Qed.

Lemma sorted_NoDup l : StronglySorted row_lt l → NoDup l.
Proof.
  induction l as [|r l IH]; [constructor|].
  intros [Hall Hs]%StronglySorted_cons. constructor; [|by apply IH].
  intros Hin. eapply Forall_forall in Hall; [|done].
  by apply row_lt_irrefl in Hall.
Qed.

Lemma np_unique_NoDup rows : NoDup (np_unique rows).
Proof. apply sorted_NoDup, np_unique_sorted. Qed.

(** *** [np.argwhere(...).item()] on a duplicate-free array *)

Lemma argwhere_from_absent r l k :
  r ∉ l →
  filter (λ ir : nat * (A * A), row_eqb r ir.2 = true) (zip (seq k (length l)) l)
  = [].
Proof.
  revert k. induction l as [|x l IH]; intros k Hnin; [done|].
  simpl. rewrite filter_cons_False.
  - apply IH. set_solver.
  - simpl. rewrite row_eqb_eq. set_solver.
Qed.

Lemma argwhere_from_present r l k i :
  NoDup l → l !! i = Some r →
  (filter (λ ir : nat * (A * A), row_eqb r ir.2 = true)
          (zip (seq k (length l)) l)).*1 = [(k + i)%nat].
Proof.
  revert k i. induction l as [|x l IH]; intros k i Hnd Hi; [done|].
  apply NoDup_cons in Hnd as [Hx Hnd]. simpl. destruct i as [|i]; simpl in Hi.
  - injection Hi as ->. rewrite filter_cons_True by (simpl; by apply row_eqb_eq).
    rewrite argwhere_from_absent by done. simpl. f_equal. lia.
  - rewrite filter_cons_False.
    + rewrite (IH (S k) i) by done. f_equal. lia.
    + simpl. rewrite row_eqb_eq. intros ->.
      apply Hx. by eapply list_elem_of_lookup_2.
Qed.

Lemma row_index_present r rows :
  NoDup rows → r ∈ rows →
  ∃ i, row_index r rows = Ok i ∧ rows !! i = Some r.
Proof.
  intros Hnd [i Hi]%list_elem_of_lookup_1. exists i. split; [|done].
  unfold row_index, np_argwhere_row, enumerate.
  by rewrite (argwhere_from_present r rows 0 i).
Qed.

Lemma row_index_lookup r rows i :
  row_index r rows = Ok i → rows !! i = Some r.
Proof.
  unfold row_index, np_argwhere_row. intros Hitem.
  destruct (filter _ (enumerate rows)) as [|[k x] [|? ?]] eqn:Hf; try done.
  simpl in Hitem. injection Hitem as ->.
  assert (Hin : (i, x) ∈ filter (λ ir : nat * (A * A), row_eqb r ir.2 = true)
                                (enumerate rows)) by (rewrite Hf; set_solver).
  apply list_elem_of_filter in Hin as [Heq Hin]. simpl in Heq.
  apply row_eqb_eq in Heq as ->. by apply elem_of_enumerate.
Qed.

Lemma row_index_unique r rows :
  r ∈ rows → ∃ i, row_index r (np_unique rows) = Ok i.
Proof.
  intros Hin. destruct (row_index_present r (np_unique rows)) as (i & ? & _).
  - apply np_unique_NoDup.
  - by apply elem_of_np_unique.
  - eauto.
Qed.
End rows.

(** ** The interface search *)

Lemma interface_at_set ifs i side partner k s :
  (i < length ifs)%nat →
  interface_at (alter (insert side partner) i ifs) k s =
  if decide (k = i ∧ s = side) then Some partner else interface_at ifs k s.
Proof.
  intros Hi. unfold interface_at.
  destruct (decide (k = i)) as [->|Hk].
  - rewrite list_lookup_alter_eq.
    apply lookup_lt_is_Some in Hi as [d ->]. simpl.
    destruct (decide (s = side)) as [->|Hs].
    + rewrite lookup_insert_eq. by rewrite decide_True.
    + rewrite lookup_insert_ne by done. rewrite decide_False; [done|tauto].
  - rewrite list_lookup_alter_ne by done. rewrite decide_False; [done|tauto].
Qed.

Lemma match_sides_spec ifs i e1 j e2 s1 s2 a b :
  (i < length ifs)%nat → (j < length ifs)%nat →
  e1 !! s1 = Some a → e2 !! s2 = Some b →
  ∃ ifs', match_sides i e1 j e2 ifs (s1, s2) = Ok ifs' ∧
          length ifs' = length ifs ∧
          ∀ k s, interface_at ifs' k s =
                 if decide (a = b) then
                   if decide (k = j ∧ s = s2) then Some (i, s1)
                   else if decide (k = i ∧ s = s1) then Some (j, s2)
                   else interface_at ifs k s
                 else interface_at ifs k s.
Proof.
  intros Hi Hj Ha Hb. unfold match_sides, dict_getitem, set_interface. simpl.
  rewrite Ha, Hb. simpl. destruct (Nat.eqb_spec a b) as [Hab|Hab].
  - rewrite py_update_nat by done. simpl.
    rewrite py_update_nat by (by rewrite length_alter).
    eexists. split_and!; [done|by rewrite !length_alter|].
    intros k s. rewrite decide_True by done.
    rewrite interface_at_set by (by rewrite length_alter).
    by rewrite interface_at_set.
  - exists ifs. split_and!; [done|done|]. intros k s. by rewrite decide_False.
Qed.

Section find_interfaces.
Variable fe : list (gmap string nat).
Hypothesis fe_dicts : Forall face_dict fe.

Lemma face_dict_lookup i d s :
  fe !! i = Some d → s ∈ sides → ∃ e, d !! s = Some e.
Proof.
  intros Hd Hs. eapply Forall_lookup_1 in fe_dicts; [|done].
  by apply fe_dicts in Hs as [e He]; eauto.
Qed.

Lemma edge_at_side i s e : edge_at fe i s = Some e → s ∈ sides.
Proof.
  unfold edge_at. destruct (fe !! i) as [d|] eqn:Hd; [simpl|done].
  intros He. eapply Forall_lookup_1 in fe_dicts; [|done].
  apply fe_dicts. eauto.
Qed.

Lemma find_interfaces_inv :
  ∃ ifs, find_interfaces (length fe) fe = Ok ifs ∧
         search_invariant fe (search_steps fe) ifs.
Proof.
  unfold find_interfaces, search_steps.
  rewrite (foldM_nested (λ p ifs ss, match_sides p.1.1 p.1.2 p.2.1 p.2.2 ifs ss)
             (λ _, product2 sides)).
  apply (foldM_invariant _ (search_invariant fe)).
  - split_and!.
    + by rewrite length_replicate.
    + intros i s1 j s2. unfold interface_at.
      destruct (replicate (length fe) ∅ !! i) as [d|] eqn:Hd; [|done].
      apply lookup_replicate in Hd as [-> _]. done.
    + intros p e Hp. by apply elem_of_nil in Hp.
  - intros pre [[[i e1] [j e2]] [s1 s2]] ifs Hin (Hlen & Hsound & Hvis).
    apply list_elem_of_bind in Hin as (p & Hx & Hp).
    apply list_elem_of_fmap in Hx as (ss & [= <- <-] & [Hs1 Hs2]%elem_of_product2).
    apply elem_of_combinations2 in Hp as (n & m & Hnm & Hn & Hm).
    apply lookup_enumerate in Hn as [<- Hi]. apply lookup_enumerate in Hm as [<- Hj].
    simpl in *.
    destruct (face_dict_lookup i e1 s1) as [a Ha]; [done..|].
    destruct (face_dict_lookup j e2 s2) as [b Hb]; [done..|].
    destruct (match_sides_spec ifs i e1 j e2 s1 s2 a b) as (ifs' & Hok & Hlen' & Hat);
      [rewrite Hlen; by eapply lookup_lt_Some..|done|done|].
    exists ifs'. split; [done|]. split_and!.
    + congruence.
    + intros k s k' s'. rewrite Hat. unfold edge_at.
      repeat case_decide; try apply Hsound.
      * destruct_and!; subst. intros [= <- <-]. split; [lia|].
        exists b. by rewrite Hi, Hj.
      * destruct_and!; subst. intros [= <- <-]. split; [lia|].
        exists b. by rewrite Hi, Hj.
    + assert (Hmono : ∀ k s, is_Some (interface_at ifs k s) →
                             is_Some (interface_at ifs' k s)).
      { intros k s. rewrite Hat. by repeat case_decide. }
      intros p e [Hp| ->%list_elem_of_singleton]%elem_of_app Hp1 Hp2.
      * destruct (Hvis p e) as [??]; auto.
      * simpl in *. rewrite !Hat. assert (a = b) by congruence.
        split; repeat case_decide; try done; tauto.
Qed.

Lemma find_interfaces_spec :
  ∃ ifs, find_interfaces (length fe) fe = Ok ifs ∧
         length ifs = length fe ∧
         interfaces_sound fe ifs ∧ interfaces_complete fe ifs.
Proof.
  destruct find_interfaces_inv as (ifs & Hok & Hlen & Hsound & Hvis).
  exists ifs. split_and!; [done..|].
  assert (Hlt : ∀ i j s1 s2 e, (i < j)%nat →
            edge_at fe i s1 = Some e → edge_at fe j s2 = Some e →
            is_Some (interface_at ifs i s1) ∧ is_Some (interface_at ifs j s2)).
  { intros i j s1 s2 e Hij H1 H2.
    pose proof (edge_at_side _ _ _ H1). pose proof (edge_at_side _ _ _ H2).
    unfold edge_at in H1, H2.
    destruct (fe !! i) as [e1|] eqn:Hi; [simpl in H1|done].
    destruct (fe !! j) as [e2|] eqn:Hj; [simpl in H2|done].
    apply (Hvis (((i, e1), (j, e2)), (s1, s2)) e); [|done|done].
    apply list_elem_of_bind. exists ((i, e1), (j, e2)). split.
    - apply list_elem_of_fmap. eexists. split; [done|].
      by apply elem_of_product2.
    - apply elem_of_combinations2. exists i, j.
      split_and!; [done|by apply lookup_enumerate..]. }
  intros i s1 j s2 e Hne H1 H2.
  destruct (decide (i < j)%nat).
  - by destruct (Hlt i j s1 s2 e).
  - by destruct (Hlt j i s2 s1 e); [lia|..].
Qed.
End find_interfaces.

(** ** The non-interface search *)

Lemma elem_of_dict_values {V : Type} (d : gmap string V) (v : V) :
  v ∈ dict_values d ↔ ∃ k, d !! k = Some v.
Proof.
  unfold dict_values. rewrite list_elem_of_fmap. split.
  - intros ([k v'] & -> & Hkv%elem_of_map_to_list). eauto.
  - intros (k & Hk). exists (k, v). split; [done|]. by apply elem_of_map_to_list.
Qed.

Lemma elem_of_other_edges (i : nat) (fe : list (gmap string nat)) (e : nat) :
  e ∈ other_edges i fe ↔ ∃ j s, j ≠ i ∧ edge_at fe j s = Some e.
Proof.
  unfold other_edges. rewrite list_elem_of_join. split.
  - intros (vs & He & ([j d] & -> & [Hj Hd]%list_elem_of_filter)%list_elem_of_fmap).
    apply elem_of_enumerate in Hd. apply elem_of_dict_values in He as [s Hs].
    exists j, s. split; [done|]. unfold edge_at. by rewrite Hd.
  - intros (j & s & Hj & He). unfold edge_at in He.
    destruct (fe !! j) as [d|] eqn:Hd; [simpl in He|done].
    exists (dict_values d). split; [apply elem_of_dict_values; eauto|].
    apply list_elem_of_fmap. exists (j, d). split; [done|].
    apply list_elem_of_filter. split; [done|]. by apply elem_of_enumerate.
Qed.

Lemma classify_sides_spec (d : gmap string nat) (flat : list nat)
    (l acc : list string) :
  (∀ s, s ∈ l → is_Some (d !! s)) →
  ∃ ni, foldM (λ acc side,
                 e ← dict_getitem d side;
                 if bool_decide (e ∈ flat) then Ok acc else Ok (acc ++ [side]))
              l acc = Ok (acc ++ ni) ∧
        (∀ s, s ∈ ni ↔ s ∈ l ∧ ∃ e, d !! s = Some e ∧ e ∉ flat) ∧
        (NoDup l → NoDup ni).
Proof.
  revert acc. induction l as [|x l IH]; intros acc Hd.
  - exists []. rewrite app_nil_r. split_and!; [done| |done].
    intros s. split; [by intros ?%elem_of_nil | by intros [?%elem_of_nil _]].
  - destruct (Hd x) as [e He]; [set_solver|].
    simpl. rewrite (dict_getitem_Some _ _ _ He). simpl. case_bool_decide as Hflat.
    + destruct (IH acc) as (ni & Hok & Hni & Hnd); [intros; apply Hd; set_solver|].
      exists ni. split_and!; [done| |by intros [??]%NoDup_cons; auto].
      intros s. rewrite Hni, elem_of_cons. split; [naive_solver|].
      intros [[->|?] (e' & ? & ?)]; [|by eauto]. congruence.
    + destruct (IH (acc ++ [x])) as (ni & Hok & Hni & Hnd);
        [intros; apply Hd; set_solver|].
      exists (x :: ni). rewrite <- app_assoc in Hok. split_and!; [done| |].
      * intros s. rewrite !elem_of_cons, Hni. naive_solver.
      * intros [Hx ?]%NoDup_cons. apply NoDup_cons. split; [|by auto].
        rewrite Hni. tauto.
Qed.

Lemma NoDup_sides : NoDup sides.
Proof. apply (bool_decide_unpack _). by vm_compute. Qed.

Lemma find_non_interfaces_spec (fe : list (gmap string nat)) :
  Forall face_dict fe →
  ∃ nis, find_non_interfaces fe = Ok nis ∧ length nis = length fe ∧
         non_interfaces_spec fe nis.
Proof.
  intros Hfe. unfold find_non_interfaces.
  set (body := λ ie : nat * gmap string nat, foldM _ sides []).
  assert (Hbody : ∀ i d, fe !! i = Some d →
            ∃ ni, body (i, d) = Ok ni ∧ NoDup ni ∧
              ∀ s, s ∈ ni ↔ s ∈ sides ∧ ∃ e, d !! s = Some e ∧ e ∉ other_edges i fe).
  { intros i d Hd. subst body. simpl.
    destruct (classify_sides_spec d (other_edges i fe) sides []) as (ni & Hok & Hni & Hnd).
    - intros s Hs. eapply Forall_lookup_1 in Hfe; [|done]. by apply Hfe.
    - exists ni. split_and!; [done|apply Hnd, NoDup_sides|done]. }
  destruct (forM_total body (enumerate fe)) as [nis Hnis].
  { intros [i d] Hin%elem_of_enumerate. destruct (Hbody i d) as (ni & ? & _); eauto. }
  exists nis. split; [done|]. apply forM_Ok in Hnis.
  split; [by rewrite <- (Forall2_length _ _ _ Hnis), length_enumerate|].
  intros i ni Hi.
  destruct (Forall2_lookup_r _ _ _ _ _ Hnis Hi) as ([i' d] & [Hi' Hd]%lookup_enumerate & Hb).
  simpl in *. subst i'. destruct (Hbody i d Hd) as (ni' & Hb' & Hnd & Hni).
  assert (ni' = ni) as -> by congruence. split; [done|].
  intros s. rewrite Hni. unfold edge_at. rewrite Hd. simpl.
  by setoid_rewrite elem_of_other_edges.
Qed.

(** ** The stages of the constructor *)

Lemma check_shapes_Ok (blocks : list Block) (u : unit) :
  check_shapes blocks = Ok u ↔ Forall (λ b : Block, shape b.1 = shape b.2) blocks.
Proof.
  unfold check_shapes. destruct u.
  induction blocks as [|b blocks IH]; simpl; [by split|].
  rewrite Forall_cons, <- IH. case_bool_decide; simpl; [tauto|]. split; [done|tauto].
Qed.

Lemma check_shapes_Err (blocks : list Block) :
  Exists (λ b : Block, shape b.1 ≠ shape b.2) blocks →
  check_shapes blocks = Err (AssertionError None).
Proof.
  unfold check_shapes. induction 1 as [b blocks Hb|b blocks _ IH]; simpl.
  - by rewrite bool_decide_eq_false_2.
  - by case_bool_decide.
Qed.

Lemma norm_index_first (n : nat) : (0 < n)%nat → norm_index n 0 = Ok 0%nat.
Proof. intros. by apply (norm_index_nat n 0). Qed.

Lemma norm_index_last (n : nat) : (0 < n)%nat → norm_index n (-1) = Ok (n - 1)%nat.
Proof.
  intros. unfold norm_index.
  rewrite bool_decide_eq_false_2, bool_decide_eq_true_2 by lia. f_equal. lia.
Qed.

Lemma norm_index_empty (i : Z) : norm_index 0 i = Err IndexError.
Proof. unfold norm_index. by rewrite !bool_decide_eq_false_2 by lia. Qed.

Lemma get_corners_Ok {A : Type} (X Y : ndarray A) :
  nonempty X → nonempty Y → get_corners X Y = Ok (corner_points X Y).
Proof.
  intros [??] [??]. unfold get_corners, np_getitem.
  by rewrite !norm_index_first, !norm_index_last by done.
Qed.

Lemma get_corners_length {A : Type} (X Y : ndarray A) (cs : list (A * A)) :
  get_corners X Y = Ok cs → ∃ c0 c1 c2 c3, cs = [c0; c1; c2; c3].
Proof. unfold get_corners. intros H. inv_ok. subst. eauto. Qed.

Lemma get_corners_nonempty {A : Type} (X Y : ndarray A) (cs : list (A * A)) :
  get_corners X Y = Ok cs → nonempty X ∧ nonempty Y.
Proof.
  unfold get_corners, np_getitem. intros H. inv_ok.
  repeat match goal with
         | H : norm_index _ _ = Ok _ |- _ => apply norm_index_lt in H
         end.
  unfold nonempty. lia.
Qed.

Lemma edge_dict_face_dict es ee en ew : face_dict (edge_dict es ee en ew).
Proof.
  intros s. unfold edge_dict, sides.
  rewrite !lookup_insert_is_Some, lookup_empty, is_Some_alt.
  rewrite !elem_of_cons, elem_of_nil.
  destruct (decide (s = "w")), (decide (s = "n")), (decide (s = "e")),
    (decide (s = "s")); naive_solver.
Qed.

Lemma block_face_Ok corners b face :
  block_face corners b = Ok face ↔
  ∃ c0 c1 c2 c3 f0 f1 f2 f3,
    get_corners b.1 b.2 = Ok [c0; c1; c2; c3] ∧ face = [f0; f1; f2; f3] ∧
    row_index c0 corners = Ok f0 ∧ row_index c1 corners = Ok f1 ∧
    row_index c2 corners = Ok f2 ∧ row_index c3 corners = Ok f3.
Proof.
  unfold block_face. rewrite bind_Ok. split.
  - intros (bc & Hbc & Hf).
    destruct (get_corners_length _ _ _ Hbc) as (c0 & c1 & c2 & c3 & ->).
    simpl in Hf. inv_ok. subst. naive_solver.
  - intros (c0 & c1 & c2 & c3 & f0 & f1 & f2 & f3 & Hc & -> & H0 & H1 & H2 & H3).
    eexists. split; [done|]. simpl. by rewrite H0, H1, H2, H3.
Qed.

Lemma face_edge_rows_Ok f0 f1 f2 f3 :
  face_edge_rows [f0; f1; f2; f3] =
  Ok [sorted2 f0 f1; sorted2 f1 f2; sorted2 f2 f3; sorted2 f3 f0].
Proof. reflexivity. Qed.

Lemma face_edge_dict_Ok edges f0 f1 f2 f3 d :
  face_edge_dict edges [f0; f1; f2; f3] = Ok d ↔
  ∃ es ee en ew,
    row_index (sorted2 f0 f1) edges = Ok es ∧
    row_index (sorted2 f1 f2) edges = Ok ee ∧
    row_index (sorted2 f2 f3) edges = Ok en ∧
    row_index (sorted2 f3 f0) edges = Ok ew ∧
    d = edge_dict es ee en ew.
Proof.
  unfold face_edge_dict, enumerate, sides. simpl.
  change (face_edge [f0; f1; f2; f3] 0) with (Ok (sorted2 f0 f1)).
  change (face_edge [f0; f1; f2; f3] 1) with (Ok (sorted2 f1 f2)).
  change (face_edge [f0; f1; f2; f3] 2) with (Ok (sorted2 f2 f3)).
  change (face_edge [f0; f1; f2; f3] 3) with (Ok (sorted2 f3 f0)).
  simpl. split.
  - intros H. inv_ok. subst. naive_solver.
  - intros (es & ee & en & ew & -> & -> & -> & -> & ->). done.
Qed.

(** ** The constructor as a whole *)

Lemma Multiblock_init_inv (bs : list Block) (self : Multiblock) :
  Multiblock_init bs = Ok self →
  blocks self = bs ∧ num_blocks self = length bs ∧
  Forall (λ b : Block, shape b.1 = shape b.2) bs ∧
  ∃ cs es,
    forM (λ b : Block, get_corners b.1 b.2) bs = Ok cs ∧ cs ≠ [] ∧
    corners self = np_unique (mjoin cs) ∧
    forM (block_face (corners self)) bs = Ok (faces self) ∧
    forM face_edge_rows (faces self) = Ok es ∧
    edges self = np_unique (mjoin es) ∧
    forM (face_edge_dict (edges self)) (faces self) = Ok (face_edges self) ∧
    find_interfaces (length bs) (face_edges self) = Ok (interfaces self) ∧
    find_non_interfaces (face_edges self) = Ok (non_interfaces self).
Proof.
  unfold Multiblock_init. intros H.
  apply bind_Ok in H as ([] & Hsh%check_shapes_Ok & H).
  apply bind_Ok in H as (cs & Hcs & H).
  apply bind_Ok in H as (allc & Hallc & H).
  apply bind_Ok in H as (fs & Hfs & H).
  apply bind_Ok in H as (es & Hes & H).
  apply bind_Ok in H as (fe & Hfe & H).
  apply bind_Ok in H as (ifs & Hifs & H).
  apply bind_Ok in H as (nis & Hnis & [= <-]). simpl.
  split_and!; [done..|]. exists cs, es.
  destruct cs as [|c cs]; [done|]. injection Hallc as <-. done.
Qed.

Lemma Multiblock_init_blocks (bs : list Block) (self : Multiblock) :
  Multiblock_init bs = Ok self →
  ∀ k b, bs !! k = Some b →
    ∃ face d, faces self !! k = Some face ∧ face_edges self !! k = Some d ∧
              block_connectivity (corners self) (edges self) b face d.
Proof.
  intros (_ & _ & _ & cs & es & _ & _ & _ & Hfs & _ & _ & Hfe & _)%Multiblock_init_inv
         k b Hb.
  apply forM_Ok in Hfs. apply forM_Ok in Hfe.
  destruct (Forall2_lookup_l _ _ _ _ _ Hfs Hb) as (face & Hface & Hbf).
  destruct (Forall2_lookup_l _ _ _ _ _ Hfe Hface) as (d & Hd & Hfd).
  exists face, d. split_and!; [done..|].
  apply block_face_Ok in Hbf
    as (c0 & c1 & c2 & c3 & f0 & f1 & f2 & f3 & Hc & -> & ? & ? & ? & ?).
  apply face_edge_dict_Ok in Hfd as (e0 & e1 & e2 & e3 & ? & ? & ? & ? & ->).
  unfold block_connectivity. naive_solver.
Qed.

Lemma Multiblock_init_face_edges (bs : list Block) (self : Multiblock) :
  Multiblock_init bs = Ok self →
  length (face_edges self) = length bs ∧ Forall face_dict (face_edges self).
Proof.
  intros Hinit. pose proof (Multiblock_init_blocks _ _ Hinit) as Hblk.
  apply Multiblock_init_inv in Hinit
    as (_ & _ & _ & cs & es & _ & _ & _ & Hfs & _ & _ & Hfe & _).
  apply forM_Ok, Forall2_length in Hfs. apply forM_Ok, Forall2_length in Hfe.
  split; [congruence|]. apply Forall_lookup. intros k d Hd.
  destruct (lookup_lt_is_Some_2 bs k) as [b Hb].
  { apply lookup_lt_Some in Hd. lia. }
  destruct (Hblk k b Hb) as (face & d' & _ & Hd' & Hconn).
  assert (d' = d) as -> by congruence.
  destruct Hconn as (? & ? & ? & ? & ? & ? & ? & ? & ? & ? & ? & ? & Hconn).
  destruct_and!. subst. apply edge_dict_face_dict.
Qed.

(** What the finished object guarantees about its two classification
    maps. *)
Lemma Multiblock_init_classification (bs : list Block) (self : Multiblock) :
  Multiblock_init bs = Ok self →
  length (interfaces self) = length bs ∧
  interfaces_sound (face_edges self) (interfaces self) ∧
  interfaces_complete (face_edges self) (interfaces self) ∧
  length (non_interfaces self) = length bs ∧
  non_interfaces_spec (face_edges self) (non_interfaces self).
Proof.
  intros Hinit. destruct (Multiblock_init_face_edges _ _ Hinit) as [Hlen Hfd].
  apply Multiblock_init_inv in Hinit
    as (_ & _ & _ & cs & es & _ & _ & _ & _ & _ & _ & _ & Hifs & Hnis).
  destruct (find_interfaces_spec _ Hfd) as (ifs & Hifs' & ? & ? & ?).
  destruct (find_non_interfaces_spec _ Hfd) as (nis & Hnis' & ? & ?).
  rewrite Hlen in Hifs'.
  assert (ifs = interfaces self) as -> by congruence.
  assert (nis = non_interfaces self) as -> by congruence.
  split_and!; [congruence|done|done|congruence|done].
Qed.

Lemma Multiblock_init_total (bs : list Block) :
  bs ≠ [] → Forall well_shaped bs → ∃ self, Multiblock_init bs = Ok self.
Proof.
  intros Hne Hws. unfold Multiblock_init.
  assert (Hsh : check_shapes bs = Ok tt).
  { apply check_shapes_Ok. eapply Forall_impl; [done|]. by intros b [??]. }
  rewrite Hsh. simpl.
  (* corners *)
  destruct (forM_total (λ b : Block, get_corners b.1 b.2) bs) as [cs Hcs].
  { intros b Hb. eapply Forall_forall in Hws as [Heq Hx]; [|done].
    eexists. apply get_corners_Ok; [done|]. unfold nonempty. by rewrite <- Heq. }
  rewrite Hcs. simpl. apply forM_Ok in Hcs.
  assert (np_concatenate cs = Ok (mjoin cs)) as ->.
  { destruct cs; [|done]. apply Forall2_length in Hcs. by destruct bs. }
  simpl. set (corners := np_unique (mjoin cs)).
  (* faces *)
  destruct (forM_total (block_face corners) bs) as [fs Hfs].
  { intros b [k Hb]%list_elem_of_lookup_1.
    destruct (Forall2_lookup_l _ _ _ _ _ Hcs Hb) as (bc & Hbc & Hgc).
    destruct (get_corners_length _ _ _ Hgc) as (c0 & c1 & c2 & c3 & ->).
    assert (Hin : ∀ c, c ∈ [c0; c1; c2; c3] → ∃ f, row_index c corners = Ok f).
    { intros c Hc. apply row_index_unique, list_elem_of_join.
      eexists. split; [done|]. by eapply list_elem_of_lookup_2. }
    destruct (Hin c0) as [f0 ?]; [set_solver|]. destruct (Hin c1) as [f1 ?]; [set_solver|].
    destruct (Hin c2) as [f2 ?]; [set_solver|]. destruct (Hin c3) as [f3 ?]; [set_solver|].
    exists [f0; f1; f2; f3]. apply block_face_Ok. naive_solver. }
  rewrite Hfs. simpl. apply forM_Ok in Hfs.
  assert (Hface : ∀ k face, fs !! k = Some face → ∃ f0 f1 f2 f3, face = [f0; f1; f2; f3]).
  { intros k face Hk.
    destruct (Forall2_lookup_r _ _ _ _ _ Hfs Hk) as (b & _ & Hb).
    apply block_face_Ok in Hb. naive_solver. }
  (* edges *)
  destruct (forM_total face_edge_rows fs) as [es Hes].
  { intros face [k Hk]%list_elem_of_lookup_1.
    destruct (Hface k face Hk) as (f0 & f1 & f2 & f3 & ->).
    eexists. apply face_edge_rows_Ok. }
  rewrite Hes. simpl. apply forM_Ok in Hes. set (edges := np_unique (mjoin es)).
  (* face edges *)
  destruct (forM_total (face_edge_dict edges) fs) as [fe Hfe].
  { intros face [k Hk]%list_elem_of_lookup_1.
    destruct (Hface k face Hk) as (f0 & f1 & f2 & f3 & ->).
    destruct (Forall2_lookup_l _ _ _ _ _ Hes Hk) as (rows & Hrows & Hr).
    rewrite face_edge_rows_Ok in Hr. injection Hr as <-.
    assert (Hin : ∀ r, r ∈ [sorted2 f0 f1; sorted2 f1 f2; sorted2 f2 f3; sorted2 f3 f0] →
                       ∃ i, row_index r edges = Ok i).
    { intros r Hr. apply row_index_unique, list_elem_of_join.
      eexists. split; [done|]. by eapply list_elem_of_lookup_2. }
    destruct (Hin (sorted2 f0 f1)) as [i0 ?]; [set_solver|].
    destruct (Hin (sorted2 f1 f2)) as [i1 ?]; [set_solver|].
    destruct (Hin (sorted2 f2 f3)) as [i2 ?]; [set_solver|].
    destruct (Hin (sorted2 f3 f0)) as [i3 ?]; [set_solver|].
    exists (edge_dict i0 i1 i2 i3). apply face_edge_dict_Ok. naive_solver. }
  rewrite Hfe. simpl. apply forM_Ok in Hfe.
  (* interfaces and non-interfaces *)
  assert (Hfd : Forall face_dict fe).
  { apply Forall_lookup. intros k d Hd.
    destruct (Forall2_lookup_r _ _ _ _ _ Hfe Hd) as (face & Hk & Hfd).
    destruct (Hface k face Hk) as (f0 & f1 & f2 & f3 & ->).
    apply face_edge_dict_Ok in Hfd as (? & ? & ? & ? & _ & _ & _ & _ & ->).
    apply edge_dict_face_dict. }
  assert (length bs = length fe) as ->.
  { apply Forall2_length in Hfs, Hfe. congruence. }
  destruct (find_interfaces_spec _ Hfd) as (ifs & -> & _).
  destruct (find_non_interfaces_spec _ Hfd) as (nis & -> & _).
  simpl. eauto.
Qed.

(** ** Queries on a finished object *)

Lemma valid_block_index_getitem (self : Multiblock) (block_idx : Z) :
  valid_block_index self block_idx ↔
  ∃ d, py_getitem (interfaces self) block_idx = Ok d.
Proof.
  unfold valid_block_index. split.
  - intros Hv. destruct (py_getitem (interfaces self) block_idx) as [d|e] eqn:Hd;
      [eauto|]. apply py_getitem_Err in Hd as [_ Hd]. lia.
  - intros (d & (k & Hk & _)%py_getitem_Ok). apply norm_index_Ok in Hk. lia.
Qed.

Lemma get_function_boundary_cases {A : Type} (F : ndarray A) (side : string) :
  side ∈ sides → nonempty F →
  get_function_boundary F side = Ok (boundary_along F side).
Proof.
  intros Hs [Hx Hy]. unfold get_function_boundary, boundary_along, np_row, np_col.
  unfold sides in Hs. rewrite !elem_of_cons, elem_of_nil in Hs.
  destruct Hs as [->|[->|[->|[->|[]]]]]; simpl;
    by rewrite ?norm_index_first, ?norm_index_last by done.
Qed.

Lemma get_neighbor_boundary_registered {A : Type} (self : Multiblock)
    (F : ndarray A) (block_idx : Z) (side : string) (partner : nat * string) :
  registered self block_idx side partner →
  get_neighbor_boundary self F block_idx side =
  reorient partner.2 side <$> get_function_boundary F partner.2.
Proof.
  intros (d & Hd & Hp). unfold get_neighbor_boundary, is_interface, dict_contains.
  rewrite Hd. simpl. rewrite bool_decide_eq_true_2 by (by rewrite Hp). simpl.
  rewrite (dict_getitem_Some _ _ _ Hp). simpl. unfold reorient.
  case_bool_decide; [done|]. by destruct (get_function_boundary F partner.2).
Qed.

Lemma registered_interface_at (self : Multiblock) (block_idx : Z) (side : string)
    (partner : nat * string) :
  registered self block_idx side partner →
  ∃ i, interface_at (interfaces self) i side = Some partner.
Proof.
  intros (d & (k & _ & Hk)%py_getitem_Ok & Hp). exists k.
  unfold interface_at. by rewrite Hk.
Qed.

Lemma partner_side_is_side (bs : list Block) (self : Multiblock) i side j side' :
  Multiblock_init bs = Ok self →
  interface_at (interfaces self) i side = Some (j, side') →
  side ∈ sides ∧ side' ∈ sides.
Proof.
  intros Hinit Hat. destruct (Multiblock_init_face_edges _ _ Hinit) as [_ Hfd].
  destruct (Multiblock_init_classification _ _ Hinit) as (_ & Hsound & _).
  destruct (Hsound _ _ _ _ Hat) as (_ & e & H1 & H2).
  split; by eapply edge_at_side.
Qed.

(** C1.  On a constructed object, for a registered interface
    [(block_idx, side)] with partner [(neighbor_idx, neighbor_side)],
    [get_neighbor_boundary] returns the boundary of [F] along
    [neighbor_side] (West = F[0,:], East = F[-1,:], South = F[:,0],
    North = F[:,-1]) reversed exactly when [(neighbor_side, side)] is one of
    the eight listed pairs, and unreversed for every other pair. *)
Theorem get_neighbor_boundary_flip_rule {A : Type} (bs : list Block)
    (self : Multiblock) (F : ndarray A) (block_idx : Z) (side : string)
    (neighbor_idx : nat) (neighbor_side : string) :
  Multiblock_init bs = Ok self →
  registered self block_idx side (neighbor_idx, neighbor_side) →
  nonempty F →
  get_neighbor_boundary self F block_idx side =
  Ok (if bool_decide ((neighbor_side, side) ∈
                        [("s","e"); ("s","s"); ("e","s"); ("e","e");
                         ("n","w"); ("n","n"); ("w","n"); ("w","w")])
      then reverse (boundary_along F neighbor_side)
      else boundary_along F neighbor_side).
Proof.
  intros Hinit Hreg HF.
  rewrite (get_neighbor_boundary_registered _ _ _ _ _ Hreg). simpl.
  destruct (registered_interface_at _ _ _ _ Hreg) as [i Hi].
  destruct (partner_side_is_side _ _ _ _ _ _ Hinit Hi) as [_ Hns].
  rewrite get_function_boundary_cases by done. simpl. unfold reorient, flip_pairs.
  by case_bool_decide.
Qed.

(** C6 as amended.  If [(block_idx, side)] is not a registered interface,
    [get_neighbor_boundary] returns no array.  For a block index the list
    accepts ([-len <= block_idx < len]) the assertion on [is_interface],
    the first statement of the method, fails before the partner is looked
    up: an [AssertionError], not the [KeyError] of the lookup.  For a block
    index out of range the list access inside [is_interface] raises
    [IndexError] instead. *)
Theorem get_neighbor_boundary_unregistered {A : Type} (self : Multiblock)
    (F : ndarray A) (block_idx : Z) (side : string) :
  (¬ ∃ partner, registered self block_idx side partner) →
  (valid_block_index self block_idx →
   get_neighbor_boundary self F block_idx side = Err (AssertionError None)) ∧
  (¬ valid_block_index self block_idx →
   get_neighbor_boundary self F block_idx side = Err IndexError).
Proof.
  intros Hnreg. unfold get_neighbor_boundary, is_interface, dict_contains. split.
  - intros (d & Hd)%valid_block_index_getitem. rewrite Hd. simpl.
    rewrite bool_decide_eq_false_2; [done|].
    intros [p Hp]. apply Hnreg. exists p, d. done.
  - intros Hnv. destruct (py_getitem (interfaces self) block_idx) as [d|e] eqn:Hd.
    + destruct Hnv. apply valid_block_index_getitem. eauto.
    + apply py_getitem_Err in Hd as [-> _]. done.
Qed.


(** C10.  For a valid block index and a side that is not a key of that
    block's interface dictionary, whatever string it is, [is_interface]
    returns [False] and does not raise. *)
Theorem is_interface_unregistered (self : Multiblock) (block_idx : Z)
    (side : string) :
  valid_block_index self block_idx →
  (¬ ∃ partner, registered self block_idx side partner) →
  is_interface self block_idx side = Ok false.
Proof.
  intros (d & Hd)%valid_block_index_getitem Hnreg.
  unfold is_interface, dict_contains. rewrite Hd. simpl.
  rewrite bool_decide_eq_false_2; [done|].
  intros [p Hp]. apply Hnreg. exists p, d. done.
Qed.

(** ** Manifold block lists *)

Lemma elem_of_occurrences fe i s e :
  Forall face_dict fe →
  (i, s) ∈ occurrences fe e ↔ edge_at fe i s = Some e.
Proof.
  intros Hfd. unfold occurrences. rewrite list_elem_of_filter. simpl.
  split; [tauto|]. intros He. split; [done|].
  apply list_elem_of_bind. exists i. split.
  - apply (list_elem_of_fmap_2 (pair i) sides s). by eapply edge_at_side.
  - apply elem_of_seq. unfold edge_at in He.
    destruct (fe !! i) eqn:Hi; [|done]. apply lookup_lt_Some in Hi. lia.
Qed.

Lemma NoDup_occurrences fe e : NoDup (occurrences fe e).
Proof.
  unfold occurrences. apply NoDup_filter, NoDup_bind.
  - intros i j p _ _ (s & -> & _)%list_elem_of_fmap (s' & [= -> _] & _)%list_elem_of_fmap.
    done.
  - intros i _. apply NoDup_fmap_2; [|apply NoDup_sides]. by intros ?? [= ->].
  - apply NoDup_seq.
Qed.

Lemma manifold_three fe e (p1 p2 p3 : nat * string) :
  Forall face_dict fe → manifold fe →
  edge_at fe p1.1 p1.2 = Some e → edge_at fe p2.1 p2.2 = Some e →
  edge_at fe p3.1 p3.2 = Some e →
  p1 = p2 ∨ p1 = p3 ∨ p2 = p3.
Proof.
  intros Hfd Hman H1 H2 H3.
  destruct (decide (p1 = p2)) as [|H12]; [by left|].
  destruct (decide (p1 = p3)) as [|H13]; [by right; left|].
  destruct (decide (p2 = p3)) as [|H23]; [by right; right|].
  exfalso.
  assert (He : e ∈ edge_values fe).
  { unfold edge_values, edge_at in *. apply list_elem_of_bind.
    destruct (fe !! p1.1) as [d|] eqn:Hd; [simpl in H1|done].
    exists d. split; [apply elem_of_dict_values; eauto|].
    by eapply list_elem_of_lookup_2. }
  eapply Forall_forall in Hman; [|done].
  assert (Hsub : [p1; p2; p3] ⊆+ occurrences fe e).
  { apply NoDup_submseteq.
    - repeat constructor; set_solver.
    - intros [i s] Hp. apply elem_of_occurrences; [done|].
      rewrite !elem_of_cons, elem_of_nil in Hp.
      destruct Hp as [<-|[<-|[<-|[]]]]; done. }
  apply submseteq_length in Hsub. simpl in Hsub. lia.
Qed.

(** ** Symmetry and completeness of the classification *)

(** C3.  When every edge has at most two [(block, side)] occurrences, the
    interface map of a constructed object is symmetric, and no two sides
    have the same partner. *)
Theorem interfaces_symmetric (bs : list Block) (self : Multiblock) :
  Multiblock_init bs = Ok self →
  manifold (face_edges self) →
  (∀ i side1 j side2,
     interface_at (interfaces self) i side1 = Some (j, side2) →
     interface_at (interfaces self) j side2 = Some (i, side1)) ∧
  (∀ i1 s1 i2 s2 partner,
     interface_at (interfaces self) i1 s1 = Some partner →
     interface_at (interfaces self) i2 s2 = Some partner →
     i1 = i2 ∧ s1 = s2).
Proof.
  intros Hinit Hman.
  destruct (Multiblock_init_face_edges _ _ Hinit) as [_ Hfd].
  destruct (Multiblock_init_classification _ _ Hinit) as (_ & Hsound & Hcompl & _).
  assert (Hsym : ∀ i side1 j side2,
             interface_at (interfaces self) i side1 = Some (j, side2) →
             interface_at (interfaces self) j side2 = Some (i, side1)).
  { intros i side1 j side2 Hij.
    destruct (Hsound _ _ _ _ Hij) as (Hne & e & Hi & Hj).
    destruct (Hcompl j side2 i side1 e) as [[k side3] Hk]; [done..|].
    destruct (Hsound _ _ _ _ Hk) as (Hne' & e' & Hj' & Hk').
    assert (e' = e) as -> by congruence.
    destruct (manifold_three _ e (i, side1) (j, side2) (k, side3) Hfd Hman)
      as [[=]|[[= <- <-]|[=]]]; done. }
  split; [done|].
  intros i1 s1 i2 s2 [j side'] H1%Hsym H2%Hsym. split; congruence.
Qed.

(** C4.  After construction every one of the four sides of every block is
    either a key of the block's interface dictionary or a member of its
    non-interface list, never both, and is listed at most once. *)
Theorem sides_classified_once (bs : list Block) (self : Multiblock) :
  Multiblock_init bs = Ok self →
  ∀ i, (i < length bs)%nat →
    ∃ d ni, interfaces self !! i = Some d ∧ non_interfaces self !! i = Some ni ∧
            NoDup ni ∧
            ∀ side, side ∈ sides → (is_Some (d !! side) ↔ side ∉ ni).
Proof.
  intros Hinit i Hi.
  destruct (Multiblock_init_face_edges _ _ Hinit) as [Hlen Hfd].
  destruct (Multiblock_init_classification _ _ Hinit)
    as (Hlifs & Hsound & Hcompl & Hlnis & Hnis).
  destruct (lookup_lt_is_Some_2 (interfaces self) i) as [d Hd]; [lia|].
  destruct (lookup_lt_is_Some_2 (non_interfaces self) i) as [ni Hni]; [lia|].
  destruct (lookup_lt_is_Some_2 (face_edges self) i) as [fd Hfe]; [lia|].
  destruct (Hnis i ni Hni) as [Hnd Hin].
  exists d, ni. split_and!; [done..|]. intros side Hside.
  destruct (face_dict_lookup _ Hfd i fd side Hfe Hside) as [e He].
  assert (Hei : edge_at (face_edges self) i side = Some e).
  { unfold edge_at. by rewrite Hfe. }
  assert (Hat : interface_at (interfaces self) i side = d !! side).
  { unfold interface_at. by rewrite Hd. }
  rewrite <- Hat, Hin. split.
  - intros [[j side'] Hj] (_ & e' & He' & Hno).
    destruct (Hsound _ _ _ _ Hj) as (Hne & e'' & H1 & H2).
    apply Hno. exists j, side'. split; [done|]. congruence.
  - intros Hnot. destruct (interface_at (interfaces self) i side) eqn:Hnone; [done|].
    destruct Hnot. split; [done|]. exists e. split; [done|].
    intros (j & side' & Hne & Hj).
    destruct (Hcompl i side j side' e) as [p Hp]; [done..|]. congruence.
Qed.

(** C5 as amended.  The constructor has no check on the number of
    occurrences of an edge: every non-empty list of well-shaped blocks is
    accepted, and every side whose edge also lies on another block is
    registered as an interface, however many sides share that edge. *)
Theorem non_manifold_accepted (bs : list Block) :
  bs ≠ [] → Forall well_shaped bs →
  ∃ self, Multiblock_init bs = Ok self ∧
          ∀ i side1 j side2 e, i ≠ j →
            edge_at (face_edges self) i side1 = Some e →
            edge_at (face_edges self) j side2 = Some e →
            is_Some (interface_at (interfaces self) i side1).
Proof.
  intros Hne Hws. destruct (Multiblock_init_total bs Hne Hws) as [self Hinit].
  exists self. split; [done|].
  by destruct (Multiblock_init_classification _ _ Hinit) as (_ & _ & Hcompl & _).
Qed.

(** C7 as amended.  If some block has coordinate arrays of different
    shapes, construction stops at the shape assertions, before any
    connectivity state is built, with an [AssertionError] that has no
    message. *)
Theorem shape_mismatch_rejected (bs : list Block) :
  Exists (λ b : Block, shape b.1 ≠ shape b.2) bs →
  Multiblock_init bs = Err (AssertionError None).
Proof.
  intros Hbad. unfold Multiblock_init. by rewrite check_shapes_Err.
Qed.

(** ** A block adjacent to itself *)

Lemma sorted2_comm (a b : nat) : sorted2 a b = sorted2 b a.
Proof.
  unfold sorted2. destruct (Nat.leb_spec a b), (Nat.leb_spec b a); try done; [|lia].
  by assert (a = b) as -> by lia.
Qed.

Lemma block_connectivity_side corners edges b face d cs side ca cb :
  block_connectivity corners edges b face d →
  get_corners b.1 b.2 = Ok cs →
  side_corners cs side = Some (ca, cb) →
  ∃ fa fb e, row_index ca corners = Ok fa ∧ row_index cb corners = Ok fb ∧
             row_index (sorted2 fa fb) edges = Ok e ∧ d !! side = Some e.
Proof.
  intros (c0 & c1 & c2 & c3 & f0 & f1 & f2 & f3 & es & ee & en & ew
          & Hc & -> & ? & ? & ? & ? & ? & ? & ? & ? & ->) Hcs.
  assert (cs = [c0; c1; c2; c3]) as -> by congruence.
  unfold side_corners, edge_dict. repeat case_decide; [..|done];
    intros [= <- <-]; subst; eauto 10.
Qed.

Lemma side_corners_side {A : Type} (cs : list (A * A)) side p :
  side_corners cs side = Some p → side ∈ sides.
Proof.
  unfold side_corners, sides.
  destruct cs as [|? [|? [|? [|? [|]]]]]; try done.
  repeat case_decide; try done; subst; set_solver.
Qed.

Lemma is_interface_nat (self : Multiblock) (k : nat) (side : string) :
  (k < length (interfaces self))%nat →
  is_interface self (Z.of_nat k) side =
  Ok (bool_decide (is_Some (interface_at (interfaces self) k side))).
Proof.
  intros [d Hd]%lookup_lt_is_Some. unfold is_interface, dict_contains, interface_at.
  rewrite (py_getitem_nat _ _ _ Hd), Hd. simpl. by case_bool_decide.
Qed.

Lemma sorted2_inj (a b c d : nat) :
  sorted2 a b = sorted2 c d → (a = c ∧ b = d) ∨ (a = d ∧ b = c).
Proof.
  unfold sorted2.
  destruct (Nat.leb_spec a b), (Nat.leb_spec c d); intros [= -> ->]; auto.
Qed.

Lemma side_corners_total {A : Type} (c0 c1 c2 c3 : A * A) (side : string) :
  side ∈ sides → ∃ ca cb, side_corners [c0; c1; c2; c3] side = Some (ca, cb).
Proof.
  unfold sides, side_corners. rewrite !elem_of_cons, elem_of_nil.
  intros [->|[->|[->|[->|[]]]]]; simpl; eauto.
Qed.

(** Two sides, of any two blocks, get the same edge index exactly when
    they join the same two corner points. *)
Lemma edge_index_eq_iff (bs : list Block) (self : Multiblock) i j b b' s s' p p' :
  Multiblock_init bs = Ok self →
  bs !! i = Some b → bs !! j = Some b' →
  side_corners (corner_points b.1 b.2) s = Some p →
  side_corners (corner_points b'.1 b'.2) s' = Some p' →
  ∃ e e', edge_at (face_edges self) i s = Some e ∧
          edge_at (face_edges self) j s' = Some e' ∧
          (e = e' ↔ same_corner_pair p p').
Proof.
  intros Hinit Hb Hb' Hp Hp'.
  destruct (Multiblock_init_blocks _ _ Hinit i b Hb) as (face & d & _ & Hd & Hconn).
  destruct (Multiblock_init_blocks _ _ Hinit j b' Hb') as (face' & d' & _ & Hd' & Hconn').
  assert (Hgc : ∀ k c, bs !! k = Some c → get_corners c.1 c.2 = Ok (corner_points c.1 c.2)).
  { intros k c Hc. destruct (Multiblock_init_blocks _ _ Hinit k c Hc)
      as (? & ? & _ & _ & (? & ? & ? & ? & ? & ? & ? & ? & ? & ? & ? & ? & Hgc & _)).
    destruct (get_corners_nonempty _ _ _ Hgc). by apply get_corners_Ok. }
  destruct p as [ca cb], p' as [ca' cb'].
  destruct (block_connectivity_side _ _ _ _ _ _ _ _ _ Hconn (Hgc _ _ Hb) Hp)
    as (fa & fb & e & Ha & Hb1 & He & Hs).
  destruct (block_connectivity_side _ _ _ _ _ _ _ _ _ Hconn' (Hgc _ _ Hb') Hp')
    as (fa' & fb' & e' & Ha' & Hb1' & He' & Hs').
  exists e, e'. unfold edge_at. rewrite Hd, Hd'. split_and!; [done..|]. split.
  - intros <-. apply row_index_lookup in He, He', Ha, Hb1, Ha', Hb1'.
    assert (Hs2 : sorted2 fa fb = sorted2 fa' fb') by congruence.
    destruct (sorted2_inj _ _ _ _ Hs2) as [[-> ->]|[-> ->]].
    + left. congruence.
    + right. simpl. congruence.
  - intros [[= -> ->]|[= -> ->]].
    + assert (fa = fa') by congruence. assert (fb = fb') by congruence.
      subst. congruence.
    + assert (fa = fb') by congruence. assert (fb = fa') by congruence.
      subst. rewrite sorted2_comm in He. congruence.
Qed.

(** C8 as amended.  A block two of whose sides join the same two corner
    points (as the two ends of a periodically wrapped grid do) has both
    sides listed as non-interfaces, provided no side of another block of
    the list joins those two points: the two sides get the same edge
    index, construction succeeds, and neither is an interface.  The sides
    of the block itself are never compared with one another.  The proviso
    (the last hypothesis) holds trivially for a list made of the one
    block. *)
Theorem self_adjacent_sides_non_interfaces (bs : list Block) (i : nat) (b : Block)
    (s1 s2 : string) (p1 p2 : (Qc * Qc) * (Qc * Qc)) :
  Forall well_shaped bs →
  bs !! i = Some b →
  s1 ≠ s2 →
  side_corners (corner_points b.1 b.2) s1 = Some p1 →
  side_corners (corner_points b.1 b.2) s2 = Some p2 →
  same_corner_pair p1 p2 →
  (∀ j b' s' p', j ≠ i → bs !! j = Some b' →
     side_corners (corner_points b'.1 b'.2) s' = Some p' →
     ¬ same_corner_pair p1 p') →
  ∃ self ni e,
    Multiblock_init bs = Ok self ∧
    edge_at (face_edges self) i s1 = Some e ∧
    edge_at (face_edges self) i s2 = Some e ∧
    non_interfaces self !! i = Some ni ∧ s1 ∈ ni ∧ s2 ∈ ni ∧
    is_interface self (Z.of_nat i) s1 = Ok false ∧
    is_interface self (Z.of_nat i) s2 = Ok false.
Proof.
  intros Hws Hb Hne Hp1 Hp2 Hsame Halone.
  destruct (Multiblock_init_total bs) as [self Hinit]; [by intros ->|done|].
  destruct (Multiblock_init_face_edges _ _ Hinit) as [Hlen Hfd].
  destruct (Multiblock_init_classification _ _ Hinit)
    as (Hlifs & Hsound & _ & Hlnis & Hnis).
  pose proof (lookup_lt_Some _ _ _ Hb) as Hi.
  destruct (edge_index_eq_iff _ _ _ _ _ _ _ _ _ _ Hinit Hb Hb Hp1 Hp2)
    as (e & e2 & He1 & He2 & Heq).
  apply Heq in Hsame as <-.
  assert (Hother : ¬ ∃ j s', j ≠ i ∧ edge_at (face_edges self) j s' = Some e).
  { intros (j & s' & Hj & He).
    pose proof (edge_at_side _ Hfd _ _ _ He) as Hs'.
    assert (is_Some (bs !! j)) as [b' Hb'].
    { apply lookup_lt_is_Some. rewrite <- Hlen. unfold edge_at in He.
      destruct (face_edges self !! j) eqn:Hfj; [|done]. by eapply lookup_lt_Some. }
    destruct (Multiblock_init_blocks _ _ Hinit j b' Hb')
      as (? & ? & _ & _ & (c0 & c1 & c2 & c3 & ? & ? & ? & ? & ? & ? & ? & ? & Hgc & _)).
    destruct (get_corners_nonempty _ _ _ Hgc) as [Hx Hy].
    rewrite (get_corners_Ok _ _ Hx Hy) in Hgc.
    destruct (side_corners_total c0 c1 c2 c3 s' Hs') as (ca & cb & Hp').
    assert (Hcp : corner_points b'.1 b'.2 = [c0; c1; c2; c3]) by congruence.
    rewrite <- Hcp in Hp'.
    destruct (edge_index_eq_iff _ _ _ _ _ _ _ _ _ _ Hinit Hb Hb' Hp1 Hp')
      as (e1 & e' & He1' & He' & Heq').
    apply (Halone j b' s' (ca, cb) Hj Hb' Hp'). apply Heq'. congruence. }
  assert (Hnone : ∀ s, edge_at (face_edges self) i s = Some e →
                       interface_at (interfaces self) i s = None).
  { intros s Hs. destruct (interface_at (interfaces self) i s) as [[j s']|] eqn:Hat;
      [|done].
    destruct (Hsound _ _ _ _ Hat) as (Hj & e' & Hi' & Hj').
    destruct Hother. exists j, s'. split; [done|]. congruence. }
  destruct (lookup_lt_is_Some_2 (non_interfaces self) i) as [ni Hni]; [lia|].
  destruct (Hnis i ni Hni) as [_ Hin].
  exists self, ni, e. split_and!; auto.
  - apply Hin. split; [by eapply side_corners_side|]. eauto.
  - apply Hin. split; [by eapply side_corners_side|]. eauto.
  - rewrite is_interface_nat by lia. by rewrite Hnone.
  - rewrite is_interface_nat by lia. by rewrite Hnone.
Qed.

(** ** Facts about the concrete grids *)

Lemma two_blocks_init : Multiblock_init two_blocks = Ok two_block_grid.
Proof. vm_compute. reflexivity. Qed.

Lemma three_blocks_init : Multiblock_init three_blocks = Ok three_block_grid.
Proof. vm_compute. reflexivity. Qed.

Lemma two_blocks_registered : registered two_block_grid 0 "e" (1%nat, "w").
Proof. eexists. split; vm_compute; reflexivity. Qed.

Lemma two_blocks_unregistered (side : string) :
  side ≠ "e" → ¬ ∃ partner, registered two_block_grid 0 side partner.
Proof.
  intros Hside (partner & d & Hd & Hp).
  assert (Hg : py_getitem (interfaces two_block_grid) 0
               = Ok ({["e" := (1%nat, "w")]} : gmap string (nat * string)))
    by (vm_compute; reflexivity).
  rewrite Hg in Hd. injection Hd as <-.
  rewrite lookup_singleton_ne in Hp by done. discriminate Hp.
Qed.

Lemma two_blocks_manifold : manifold (face_edges two_block_grid).
Proof. apply (bool_decide_unpack _). by vm_compute. Qed.

Lemma two_blocks_well_shaped : Forall well_shaped two_blocks.
Proof. repeat constructor; simpl; lia. Qed.

Lemma three_blocks_well_shaped : Forall well_shaped three_blocks.
Proof. repeat constructor; simpl; lia. Qed.

Lemma F1_nonempty : nonempty F1.
Proof. split; simpl; lia. Qed.

(** ** The concrete scenario *)

(** C2.  For block0 on [0,1] × [0,1] and block1 on [1,2] × [0,1], 3-by-3
    nodes each: construction succeeds, the east side of block 0 is an
    interface with partner [(1, 'w')], its south, north and west sides are
    non-interfaces, and a grid function with west boundary [10, 11, 12] is
    handed to block 0 unchanged. *)
Theorem two_block_scenario :
  ∃ self, Multiblock_init two_blocks = Ok self ∧
    is_interface self 0 "e" = Ok true ∧
    (py_getitem (interfaces self) 0 ≫= λ d, dict_getitem d "e") = Ok (1%nat, "w") ∧
    is_interface self 0 "s" = Ok false ∧
    is_interface self 0 "n" = Ok false ∧
    is_interface self 0 "w" = Ok false ∧
    py_getitem (non_interfaces self) 0 = Ok ["s"; "n"; "w"] ∧
    ∀ F : ndarray Z,
      get_function_boundary F "w" = Ok [10; 11; 12] →
      get_neighbor_boundary self F 0 "e" = Ok [10; 11; 12].
Proof.
  exists two_block_grid. split_and!; try (vm_compute; reflexivity).
  intros F HF.
  rewrite (get_neighbor_boundary_registered _ _ _ _ _ two_blocks_registered).
  simpl. by rewrite HF.
Qed.

Lemma two_block_scenario_witness :
  ∃ self, Multiblock_init two_blocks = Ok self ∧
          get_neighbor_boundary self F1 0 "e" = Ok [10; 11; 12].
Proof.
  destruct two_block_scenario as (self & Hinit & _ & _ & _ & _ & _ & _ & HF).
  exists self. split; [exact Hinit|]. apply HF. reflexivity.
Defined.

(** ** The theorems on the concrete grids *)

Lemma get_neighbor_boundary_flip_rule_witness :
  Multiblock_init two_blocks = Ok two_block_grid ∧
  registered two_block_grid 0 "e" (1%nat, "w") ∧
  nonempty F1 ∧
  get_neighbor_boundary two_block_grid F1 0 "e" = Ok [10; 11; 12].
Proof.
  split_and!; [exact two_blocks_init|exact two_blocks_registered|exact F1_nonempty|].
  exact (get_neighbor_boundary_flip_rule two_blocks two_block_grid F1 0 "e" 1 "w"
           two_blocks_init two_blocks_registered F1_nonempty).
Defined.

Lemma interfaces_symmetric_witness :
  Multiblock_init two_blocks = Ok two_block_grid ∧
  manifold (face_edges two_block_grid) ∧
  interface_at (interfaces two_block_grid) 0 "e" = Some (1%nat, "w") ∧
  interface_at (interfaces two_block_grid) 1 "w" = Some (0%nat, "e").
Proof.
  assert (H : interface_at (interfaces two_block_grid) 0 "e" = Some (1%nat, "w"))
    by (vm_compute; reflexivity).
  split_and!; [exact two_blocks_init|exact two_blocks_manifold|exact H|].
  exact (proj1 (interfaces_symmetric two_blocks two_block_grid
                  two_blocks_init two_blocks_manifold) 0%nat "e" 1%nat "w" H).
Defined.

Lemma sides_classified_once_witness :
  Multiblock_init two_blocks = Ok two_block_grid ∧
  ∃ d ni, interfaces two_block_grid !! 0%nat = Some d ∧
          non_interfaces two_block_grid !! 0%nat = Some ni ∧
          NoDup ni ∧
          ∀ side, side ∈ sides → (is_Some (d !! side) ↔ side ∉ ni).
Proof.
  split; [exact two_blocks_init|].
  apply (sides_classified_once two_blocks two_block_grid two_blocks_init 0%nat).
  simpl. lia.
Defined.

(** C5, counterexample.  Three blocks claim the edge x = 1 (edge index 3:
    east of block 0, west of blocks 1 and 2).  Construction returns an
    object; the map it stores is not symmetric. *)
Lemma three_blocks_not_rejected :
  Multiblock_init three_blocks = Ok three_block_grid ∧
  occurrences (face_edges three_block_grid) 3 = [(0, "e"); (1, "w"); (2, "w")]%nat ∧
  ¬ manifold (face_edges three_block_grid) ∧
  interface_at (interfaces three_block_grid) 0 "e" = Some (2%nat, "w") ∧
  interface_at (interfaces three_block_grid) 1 "w" = Some (2%nat, "w") ∧
  interface_at (interfaces three_block_grid) 2 "w" = Some (1%nat, "w").
Proof.
  split_and!; [exact three_blocks_init|vm_compute; reflexivity| |
               vm_compute; reflexivity..].
  intros H. apply (bool_decide_pack _) in H. by vm_compute in H.
Qed.

Lemma non_manifold_accepted_witness :
  three_blocks ≠ [] ∧ Forall well_shaped three_blocks ∧
  ∃ self, Multiblock_init three_blocks = Ok self ∧
          ∀ i side1 j side2 e, i ≠ j →
            edge_at (face_edges self) i side1 = Some e →
            edge_at (face_edges self) j side2 = Some e →
            is_Some (interface_at (interfaces self) i side1).
Proof.
  assert (Hne : three_blocks ≠ []) by discriminate.
  split_and!; [exact Hne|exact three_blocks_well_shaped|].
  exact (non_manifold_accepted three_blocks Hne three_blocks_well_shaped).
Defined.

Lemma two_blocks_valid_index : valid_block_index two_block_grid 0.
Proof. apply valid_block_index_getitem. eexists. vm_compute. reflexivity. Qed.

(** C6, counterexample.  On the two-block grid, block index 5 is out of
    range: [(5, 'e')] is not a registered interface, and the call fails
    with [IndexError], raised by [self.interfaces[block_idx]] inside
    [is_interface], not with the error of the assertion. *)
Lemma unregistered_out_of_range_index :
  (¬ ∃ partner, registered two_block_grid 5 "e" partner) ∧
  is_interface two_block_grid 5 "e" = Err IndexError ∧
  get_neighbor_boundary two_block_grid F1 5 "e" = Err IndexError ∧
  get_neighbor_boundary two_block_grid F1 5 "e" ≠ Err (AssertionError None).
Proof.
  assert (Hg : get_neighbor_boundary two_block_grid F1 5 "e" = Err IndexError)
    by (vm_compute; reflexivity).
  split_and!.
  - intros (partner & d & Hd & _). vm_compute in Hd. discriminate Hd.
  - vm_compute. reflexivity.
  - exact Hg.
  - rewrite Hg. discriminate.
Qed.

Lemma get_neighbor_boundary_unregistered_witness :
  (¬ ∃ partner, registered two_block_grid 0 "s" partner) ∧
  get_neighbor_boundary two_block_grid F1 0 "s" = Err (AssertionError None) ∧
  get_neighbor_boundary two_block_grid F1 5 "e" = Err IndexError.
Proof.
  assert (Hs : ("s" : string) ≠ "e") by discriminate.
  assert (H5 : ¬ ∃ partner, registered two_block_grid 5 "e" partner).
  { intros (partner & d & Hd & _). vm_compute in Hd. discriminate Hd. }
  assert (Hv : ¬ valid_block_index two_block_grid 5).
  { intros (d & Hd)%valid_block_index_getitem. vm_compute in Hd. discriminate Hd. }
  split_and!.
  - exact (two_blocks_unregistered "s" Hs).
  - exact (proj1 (get_neighbor_boundary_unregistered two_block_grid F1 0 "s"
                    (two_blocks_unregistered "s" Hs)) two_blocks_valid_index).
  - exact (proj2 (get_neighbor_boundary_unregistered two_block_grid F1 5 "e" H5) Hv).
Defined.

Lemma is_interface_unregistered_witness :
  valid_block_index two_block_grid 0 ∧
  (¬ ∃ partner, registered two_block_grid 0 "x" partner) ∧
  is_interface two_block_grid 0 "x" = Ok false.
Proof.
  assert (Hx : ("x" : string) ≠ "e") by discriminate.
  split_and!; [exact two_blocks_valid_index|exact (two_blocks_unregistered "x" Hx)|].
  exact (is_interface_unregistered two_block_grid 0 "x" two_blocks_valid_index
           (two_blocks_unregistered "x" Hx)).
Defined.

Lemma mismatched_block_shapes : shape mismatched_block.1 ≠ shape mismatched_block.2.
Proof. discriminate. Qed.

(** C7, counterexample.  The error raised for a shape mismatch is the same
    message-less [AssertionError] whether the offending block is the first
    or the second of the list; no reading of the error yields the index. *)
Lemma shape_error_names_no_index :
  Multiblock_init [mismatched_block; grid_block 3 3 0 1 0 1]
    = Err (AssertionError None) ∧
  Multiblock_init [grid_block 3 3 0 1 0 1; mismatched_block]
    = Err (AssertionError None) ∧
  ¬ ∃ named : exn → nat,
      ∀ bs e, Multiblock_init bs = Err e →
              Exists (λ b : Block, shape b.1 ≠ shape b.2) bs →
              ∃ b : Block, bs !! named e = Some b ∧ shape b.1 ≠ shape b.2.
Proof.
  assert (H1 : Multiblock_init [mismatched_block; grid_block 3 3 0 1 0 1]
               = Err (AssertionError None)) by reflexivity.
  assert (H2 : Multiblock_init [grid_block 3 3 0 1 0 1; mismatched_block]
               = Err (AssertionError None)) by reflexivity.
  split_and!; [done..|]. intros [named Hnamed].
  destruct (Hnamed _ _ H1) as (b1 & Hb1 & Hs1);
    [apply Exists_cons_hd, mismatched_block_shapes|].
  destruct (Hnamed _ _ H2) as (b2 & Hb2 & Hs2);
    [apply Exists_cons_tl, Exists_cons_hd, mismatched_block_shapes|].
  destruct (named (AssertionError None)) as [|[|n]]; simpl in *.
  - injection Hb2 as <-. by apply Hs2.
  - injection Hb1 as <-. by apply Hs1.
  - done.
Qed.

Lemma shape_mismatch_rejected_witness :
  Exists (λ b : Block, shape b.1 ≠ shape b.2)
         [grid_block 3 3 0 1 0 1; mismatched_block] ∧
  Multiblock_init [grid_block 3 3 0 1 0 1; mismatched_block]
    = Err (AssertionError None).
Proof.
  assert (H : Exists (λ b : Block, shape b.1 ≠ shape b.2)
                     [grid_block 3 3 0 1 0 1; mismatched_block])
    by (apply Exists_cons_tl, Exists_cons_hd, mismatched_block_shapes).
  split; [exact H|]. exact (shape_mismatch_rejected _ H).
Defined.

Lemma wrapped_block_well_shaped : well_shaped wrapped_block.
Proof. repeat split; simpl; lia. Qed.

(** C8, counterexample.  In the list of the wrapped block and a block on
    [0,1] × [0,2], the east and west sides of the wrapped block join the
    same two corner points and get the same edge index, but the west side
    of the second block has that edge too: both sides of the wrapped
    block are registered as interfaces and its non-interface list holds
    only south and north. *)
Lemma self_adjacent_sides_with_neighbor :
  Multiblock_init wrapped_with_neighbor = Ok wrapped_with_neighbor_grid ∧
  side_corners (corner_points wrapped_block.1 wrapped_block.2) "e"
    = Some ((Q2Qc 0, Q2Qc 0), (Q2Qc 0, Q2Qc 2)) ∧
  side_corners (corner_points wrapped_block.1 wrapped_block.2) "w"
    = Some ((Q2Qc 0, Q2Qc 2), (Q2Qc 0, Q2Qc 0)) ∧
  edge_at (face_edges wrapped_with_neighbor_grid) 0 "e" = Some 1%nat ∧
  edge_at (face_edges wrapped_with_neighbor_grid) 0 "w" = Some 1%nat ∧
  edge_at (face_edges wrapped_with_neighbor_grid) 1 "w" = Some 1%nat ∧
  is_interface wrapped_with_neighbor_grid 0 "e" = Ok true ∧
  is_interface wrapped_with_neighbor_grid 0 "w" = Ok true ∧
  non_interfaces wrapped_with_neighbor_grid !! 0%nat = Some ["s"; "n"].
Proof. split_and!; vm_compute; reflexivity. Qed.

Lemma self_adjacent_sides_non_interfaces_witness :
  Forall well_shaped [wrapped_block] ∧
  same_corner_pair (A := Qc)
    ((Q2Qc 0, Q2Qc 0), (Q2Qc 0, Q2Qc 2)) ((Q2Qc 0, Q2Qc 2), (Q2Qc 0, Q2Qc 0)) ∧
  ∃ self ni e,
    Multiblock_init [wrapped_block] = Ok self ∧
    edge_at (face_edges self) 0 "e" = Some e ∧
    edge_at (face_edges self) 0 "w" = Some e ∧
    non_interfaces self !! 0%nat = Some ni ∧ "e" ∈ ni ∧ "w" ∈ ni ∧
    is_interface self 0 "e" = Ok false ∧ is_interface self 0 "w" = Ok false.
Proof.
  assert (Hws : Forall well_shaped [wrapped_block])
    by (constructor; [exact wrapped_block_well_shaped | constructor]).
  assert (Hne : ("e" : string) ≠ "w") by discriminate.
  assert (Hsame : same_corner_pair (A := Qc)
            ((Q2Qc 0, Q2Qc 0), (Q2Qc 0, Q2Qc 2)) ((Q2Qc 0, Q2Qc 2), (Q2Qc 0, Q2Qc 0)))
    by (right; reflexivity).
  assert (Halone : ∀ (j : nat) (b' : Block) (s' : string) (p' : (Qc * Qc) * (Qc * Qc)),
            j ≠ 0%nat → [wrapped_block] !! j = Some b' →
            side_corners (corner_points b'.1 b'.2) s' = Some p' →
            ¬ same_corner_pair ((Q2Qc 0, Q2Qc 0), (Q2Qc 0, Q2Qc 2)) p').
  { intros [|j] b' s' p' Hj Hb'; [done | discriminate Hb']. }
  split_and!; [exact Hws|exact Hsame|].
  exact (self_adjacent_sides_non_interfaces [wrapped_block] 0 wrapped_block "e" "w"
           _ _ Hws eq_refl Hne eq_refl eq_refl Hsame Halone).
Defined.

(** ** The boundary accessors *)

Lemma is_side_sides (side : string) : is_side side = true ↔ side ∈ sides.
Proof.
  unfold is_side, sides. rewrite bool_decide_eq_true, !elem_of_cons, !elem_of_nil.
  tauto.
Qed.

Lemma is_side_false (side : string) : side ∉ sides → is_side side = false.
Proof.
  intros Hs. destruct (is_side side) eqn:H; [|done]. by apply is_side_sides in H.
Qed.

Lemma side_cases (side : string) :
  side ∈ sides → side = "s" ∨ side = "e" ∨ side = "n" ∨ side = "w".
Proof. unfold sides. rewrite !elem_of_cons, elem_of_nil. tauto. Qed.

Lemma norm_index_none (n : nat) (i : Z) :
  ¬ (0 < n)%nat → norm_index n i = Err IndexError.
Proof. intros Hn. assert (n = 0%nat) as -> by lia. apply norm_index_empty. Qed.

(** X1.  Each of the three boundary accessors rejects a side that is not
    one of ['s'], ['e'], ['n'], ['w'] with its assertion, whatever the
    arrays are. *)
Theorem boundary_accessors_reject_side {A : Type} (X Y : ndarray A) (side : string) :
  side ∉ sides →
  get_function_boundary X side = Err (AssertionError None) ∧
  get_boundary X Y side = Err (AssertionError None) ∧
  get_boundary_slice X side = Err (AssertionError None).
Proof.
  intros Hs. unfold get_function_boundary, get_boundary, get_boundary_slice.
  rewrite (is_side_false _ Hs). split_and!; [done..|].
  by rewrite bool_decide_eq_false_2 by exact Hs.
Qed.

(** X2.  For one of the four sides, [get_function_boundary] succeeds
    exactly when the axis it indexes is not empty (the rows for west and
    east, the columns for south and north) and raises [IndexError]
    otherwise; the array it returns runs along the other axis and has
    that axis' extent as its length. *)
Theorem get_function_boundary_outcome {A : Type} (F : ndarray A) (side : string) :
  side ∈ sides →
  let indexed := if bool_decide (side ∈ ["w"; "e"]) then (shape F).1 else (shape F).2 in
  let other := if bool_decide (side ∈ ["w"; "e"]) then (shape F).2 else (shape F).1 in
  get_function_boundary F side =
    (if decide (0 < indexed)%nat then Ok (boundary_along F side) else Err IndexError) ∧
  length (boundary_along F side) = other.
Proof.
  intros Hs. unfold get_function_boundary, boundary_along, np_row, np_col.
  rewrite (proj2 (is_side_sides side) Hs).
  destruct (side_cases _ Hs) as [->|[->|[->| ->]]]; simpl;
    (split; [|by rewrite length_fmap, length_seq]);
    case_decide.
  all: rewrite ?norm_index_first, ?norm_index_last by done; try done.
  all: by rewrite norm_index_none.
Qed.

Lemma get_boundary_eq {A : Type} (X Y : ndarray A) (side : string) :
  get_boundary X Y side =
  (x ← get_function_boundary X side; y ← get_function_boundary Y side; Ok (x, y)).
Proof.
  unfold get_boundary, get_function_boundary.
  destruct (is_side side) eqn:Hs; [|done].
  apply is_side_sides, side_cases in Hs as [->|[->|[->| ->]]]; simpl; done.
Qed.

(** X3.  [get_boundary] returns the pair of what [get_function_boundary]
    returns for the two coordinate arrays, and raises what the first
    failing one of them raises. *)
Theorem get_boundary_pair {A : Type} (X Y : ndarray A) (side : string) :
  get_boundary X Y side =
  (x ← get_function_boundary X side; y ← get_function_boundary Y side; Ok (x, y)).
Proof. apply get_boundary_eq. Qed.

(** X4.  For one of the four sides [get_boundary_slice] returns an index
    pair, and indexing [F] with it gives the 1D array that
    [get_function_boundary] gives (and fails where that fails). *)
Theorem get_boundary_slice_indexes_boundary {A : Type} (F : ndarray A)
    (side : string) :
  side ∈ sides →
  ∃ idx, get_boundary_slice F side = Ok idx ∧
         np_getitem_tuple F idx = np_array1 <$> get_function_boundary F side.
Proof.
  intros Hs. unfold get_boundary_slice, get_function_boundary.
  rewrite (proj2 (is_side_sides side) Hs).
  destruct (side_cases _ Hs) as [->|[->|[->| ->]]]; simpl;
    eexists; (split; [reflexivity|]); simpl; unfold np_row, np_col;
    rewrite Nat.min_id;
    match goal with
    | |- context [norm_index ?n ?i] => by destruct (norm_index n i)
    end.
Qed.

Lemma get_corners_Err {A : Type} (X Y : ndarray A) (e : exn) :
  get_corners X Y = Err e → e = IndexError.
Proof.
  unfold get_corners, np_getitem. intros Hgc.
  repeat match type of Hgc with
         | context [norm_index ?n ?i] =>
             let H := fresh in
             destruct (norm_index n i) eqn:H; simpl in Hgc;
             [|apply norm_index_Err in H as [-> _]; congruence]
         end.
  done.
Qed.

Lemma get_corners_empty {A : Type} (X Y : ndarray A) :
  ¬ (nonempty X ∧ nonempty Y) → get_corners X Y = Err IndexError.
Proof.
  intros Hne. destruct (get_corners X Y) as [cs|e] eqn:Hgc.
  - destruct Hne. by eapply get_corners_nonempty.
  - f_equal. by eapply get_corners_Err.
Qed.

(** X5.  [get_corners] returns the four corner points, in counter-clockwise
    order from index (0,0), when both arrays have at least one row and one
    column, and raises [IndexError] otherwise. *)
Theorem get_corners_outcome {A : Type} (X Y : ndarray A) :
  (nonempty X ∧ nonempty Y → get_corners X Y = Ok (corner_points X Y)) ∧
  (¬ (nonempty X ∧ nonempty Y) → get_corners X Y = Err IndexError).
Proof.
  split; [intros [??]; by apply get_corners_Ok | apply get_corners_empty].
Qed.

(** ** What the constructor accepts and what it stores *)

Lemma forM_Err {X Y : Type} (f : X → result Y) (l : list X) (e : exn) :
  (∀ x e', x ∈ l → f x = Err e' → e' = e) →
  (∃ x e', x ∈ l ∧ f x = Err e') →
  forM f l = Err e.
Proof.
  induction l as [|x l IH]; intros Hall (y & e' & Hy & He).
  - by apply elem_of_nil in Hy.
  - simpl. destruct (f x) as [v|e''] eqn:Hx; simpl.
    + rewrite IH; [done| |].
      * intros x' e0 Hx' He0. apply (Hall x' e0); [set_solver|done].
      * apply elem_of_cons in Hy as [->|Hy]; [congruence|eauto].
    + f_equal. apply (Hall x e''); [set_solver|done].
Qed.

Lemma corners_of_blocks (bs : list Block) (cs : list (list (Qc * Qc))) :
  forM (λ b : Block, get_corners b.1 b.2) bs = Ok cs →
  cs = (λ b : Block, corner_points b.1 b.2) <$> bs ∧
  Forall (λ b : Block, nonempty b.1 ∧ nonempty b.2) bs.
Proof.
  rewrite forM_Ok. induction 1 as [|b c bs cs Hb _ IH]; [done|].
  destruct IH as [-> IH].
  destruct (get_corners_nonempty _ _ _ Hb) as [Hx Hy].
  rewrite (get_corners_Ok _ _ Hx Hy) in Hb. injection Hb as <-.
  split; [done|]. by constructor.
Qed.

(** X6.  The constructor returns an object exactly for a non-empty list of
    blocks whose two coordinate arrays have the same shape, with at least
    one row and one column. *)
Theorem Multiblock_init_accepts_iff (bs : list Block) :
  (∃ self, Multiblock_init bs = Ok self) ↔ bs ≠ [] ∧ Forall well_shaped bs.
Proof.
  split; [|intros [??]; by apply Multiblock_init_total].
  intros [self (_ & _ & Hsh & cs & es & Hcs & Hne & _)%Multiblock_init_inv].
  apply corners_of_blocks in Hcs as [-> Hcs]. split; [by intros ->|].
  apply Forall_forall. intros b Hb. split.
  - by eapply Forall_forall in Hsh.
  - eapply Forall_forall in Hcs as [??]; done.
Qed.

Lemma Multiblock_init_empty_block (bs : list Block) :
  Forall (λ b : Block, shape b.1 = shape b.2) bs →
  Exists (λ b : Block, ¬ nonempty b.1) bs →
  Multiblock_init bs = Err IndexError.
Proof.
  intros Hsh Hbad. unfold Multiblock_init.
  rewrite (proj2 (check_shapes_Ok bs tt) Hsh). simpl.
  rewrite (forM_Err _ _ IndexError); [done| |].
  - intros b e _ He. by eapply get_corners_Err.
  - apply Exists_exists in Hbad as (b & Hb & Hn). exists b, IndexError.
    split; [done|]. apply get_corners_empty. tauto.
Qed.

(** X7.  When all blocks pass the shape assertions, an empty block list
    makes the constructor raise [ValueError] (nothing to concatenate), and
    a block with no rows or no columns makes it raise [IndexError] (the
    corner lookup). *)
Theorem Multiblock_init_errors (bs : list Block) :
  Forall (λ b : Block, shape b.1 = shape b.2) bs →
  (bs = [] → Multiblock_init bs = Err ValueError) ∧
  (Exists (λ b : Block, ¬ nonempty b.1) bs → Multiblock_init bs = Err IndexError).
Proof.
  intros Hsh. split; [by intros ->|]. by apply Multiblock_init_empty_block.
Qed.

(** X23.  For blocks whose coordinates are numbers (NaN has no
    representation in this development, see the conventions at the top),
    the constructor fails in three ways only: the shape assertion (some
    block's arrays differ in shape), [ValueError] for the empty block list,
    and [IndexError] for a block without rows or columns.  On such blocks
    the corner and edge lookups ([argwhere(...).item()]) and the dictionary
    accesses never raise. *)
Theorem Multiblock_init_error_kinds (bs : list Block) (e : exn) :
  Multiblock_init bs = Err e →
  (e = AssertionError None ∧ Exists (λ b : Block, shape b.1 ≠ shape b.2) bs) ∨
  (e = ValueError ∧ bs = []) ∨
  (e = IndexError ∧ Forall (λ b : Block, shape b.1 = shape b.2) bs ∧
   Exists (λ b : Block, ¬ nonempty b.1) bs).
Proof.
  intros Herr.
  destruct (decide (Exists (λ b : Block, shape b.1 ≠ shape b.2) bs)) as [Hbad|Hok].
  { left. split; [|done]. unfold Multiblock_init in Herr.
    rewrite (check_shapes_Err _ Hbad) in Herr. simpl in Herr. congruence. }
  assert (Hsh : Forall (λ b : Block, shape b.1 = shape b.2) bs).
  { apply Forall_forall. intros b Hb. destruct (decide (shape b.1 = shape b.2)); [done|].
    destruct Hok. apply Exists_exists. eauto. }
  right. destruct bs as [|b0 bs'] eqn:Hbs; [left; split; [|done]|right].
  { unfold Multiblock_init in Herr. simpl in Herr. congruence. }
  rewrite <- Hbs in *.
  destruct (decide (Exists (λ b : Block, ¬ nonempty b.1) bs)) as [Hempty|Hfull].
  { rewrite (Multiblock_init_empty_block _ Hsh Hempty) in Herr.
    split_and!; [congruence|done|done]. }
  destruct (Multiblock_init_total bs) as [self Hself]; [by rewrite Hbs| |congruence].
  apply Forall_forall. intros b Hb. split; [by eapply Forall_forall in Hsh|].
  destruct (decide (nonempty b.1)); [done|].
  destruct Hfull. apply Exists_exists. eauto.
Qed.

(** X8.  [corners] of a constructed object holds every corner point of
    every block and nothing else, each point once, in ascending
    lexicographic order of (x, y). *)
Theorem corners_unique_sorted (bs : list Block) (self : Multiblock) :
  Multiblock_init bs = Ok self →
  StronglySorted row_lt (corners self) ∧ NoDup (corners self) ∧
  ∀ c, c ∈ corners self ↔ ∃ b : Block, b ∈ bs ∧ c ∈ corner_points b.1 b.2.
Proof.
  intros (_ & _ & _ & cs & es & Hcs & _ & -> & _)%Multiblock_init_inv.
  apply corners_of_blocks in Hcs as [-> _].
  split_and!; [apply np_unique_sorted|apply np_unique_NoDup|].
  intros c. rewrite elem_of_np_unique, list_elem_of_join. split.
  - intros (pts & Hc & (b & -> & Hb)%list_elem_of_fmap). eauto.
  - intros (b & Hb & Hc). eexists. split; [done|].
    by apply (list_elem_of_fmap_2 (λ b : Block, corner_points b.1 b.2)).
Qed.

Lemma face_corner_lookup (bs : list Block) (self : Multiblock) (k : nat)
    (b : Block) :
  Multiblock_init bs = Ok self →
  bs !! k = Some b →
  ∃ face, faces self !! k = Some face ∧
          Forall2 (λ f c, corners self !! f = Some c) face
                  (corner_points b.1 b.2).
Proof.
  intros Hinit Hb.
  destruct (Multiblock_init_blocks _ _ Hinit k b Hb) as (face & d & Hface & _ & Hconn).
  destruct Hconn as (c0 & c1 & c2 & c3 & f0 & f1 & f2 & f3 & ? & ? & ? & ?
                     & Hgc & -> & H0 & H1 & H2 & H3 & _).
  destruct (get_corners_nonempty _ _ _ Hgc) as [Hx Hy].
  rewrite (get_corners_Ok _ _ Hx Hy) in Hgc.
  assert (Hcp : corner_points b.1 b.2 = [c0; c1; c2; c3]) by congruence.
  rewrite Hcp. exists [f0; f1; f2; f3]. split; [done|].
  repeat constructor; by apply row_index_lookup.
Qed.

(** X9.  As the class docstring says: [faces[k]] has four entries, and
    entry [n] is the index in [corners] of corner [n] of block [k]
    ((X[0,0],Y[0,0]), (X[-1,0],Y[-1,0]), (X[-1,-1],Y[-1,-1]),
    (X[0,-1],Y[0,-1]) in this order). *)
Theorem faces_index_corners (bs : list Block) (self : Multiblock) (k : nat)
    (b : Block) :
  Multiblock_init bs = Ok self →
  bs !! k = Some b →
  ∃ face, faces self !! k = Some face ∧ length face = 4%nat ∧
          Forall2 (λ f c, corners self !! f = Some c) face
                  (corner_points b.1 b.2).
Proof.
  intros Hinit Hb. destruct (face_corner_lookup _ _ _ _ Hinit Hb) as (face & ? & HF).
  exists face. split_and!; [done| |done]. by rewrite (Forall2_length _ _ _ HF).
Qed.

Lemma face_edge_Ok (face : list nat) (k : nat) (a b : nat) :
  face_edge face k = Ok (a, b) →
  (a ≤ b)%nat ∧ a ∈ face ∧ b ∈ face.
Proof.
  unfold face_edge. intros H. inv_ok.
  repeat match goal with
         | H : py_getitem _ _ = Ok _ |- _ =>
             apply py_getitem_Ok in H as (? & _ & ?%list_elem_of_lookup_2)
         end.
  unfold sorted2 in H. destruct (Nat.leb_spec x x0); injection H as <- <-;
    split_and!; done || lia.
Qed.

Lemma edge_rows_of_faces (fs : list (list nat)) (es : list (list (nat * nat)))
    (r : nat * nat) :
  forM face_edge_rows fs = Ok es →
  r ∈ mjoin es ↔ ∃ face k, face ∈ fs ∧ (k < 4)%nat ∧ face_edge face k = Ok r.
Proof.
  rewrite forM_Ok. intros Hes. rewrite list_elem_of_join. split.
  - intros (rows & Hr & [n Hrows]%list_elem_of_lookup_1).
    destruct (Forall2_lookup_r _ _ _ _ _ Hes Hrows) as (face & Hface & Hfr).
    unfold face_edge_rows in Hfr. apply forM_Ok in Hfr.
    apply list_elem_of_lookup_1 in Hr as [m Hm].
    destruct (Forall2_lookup_r _ _ _ _ _ Hfr Hm) as (k & Hk & Hfe).
    apply lookup_seq in Hk as [-> Hk].
    exists face, m. split_and!; [by eapply list_elem_of_lookup_2|done|done].
  - intros (face & k & [n Hface]%list_elem_of_lookup_1 & Hk & Hfe).
    destruct (Forall2_lookup_l _ _ _ _ _ Hes Hface) as (rows & Hrows & Hfr).
    exists rows. split; [|by eapply list_elem_of_lookup_2].
    unfold face_edge_rows in Hfr. apply forM_Ok in Hfr.
    destruct (Forall2_lookup_l _ _ _ _ _ Hfr (lookup_seq_lt 0 4 k Hk))
      as (r' & Hr' & Hfe').
    simpl in Hfe'. assert (r' = r) as -> by congruence.
    by eapply list_elem_of_lookup_2.
Qed.

(** X10.  [edges] of a constructed object holds exactly the pairs
    [sorted([face[k], face[(k+1)%4]])] of its faces, each pair once, in
    ascending lexicographic order; every edge is an ascending pair of
    valid indices into [corners]. *)
Theorem edges_unique_sorted (bs : list Block) (self : Multiblock) :
  Multiblock_init bs = Ok self →
  StronglySorted row_lt (edges self) ∧ NoDup (edges self) ∧
  (∀ r, r ∈ edges self ↔
        ∃ face k, face ∈ faces self ∧ (k < 4)%nat ∧ face_edge face k = Ok r) ∧
  (∀ a b, (a, b) ∈ edges self → (a ≤ b < length (corners self))%nat).
Proof.
  intros Hinit.
  pose proof (Multiblock_init_blocks _ _ Hinit) as Hblk.
  pose proof Hinit as (_ & _ & _ & cs & es & _ & _ & _ & Hfs & Hes & Hedges & _)%Multiblock_init_inv.
  assert (Hmem : ∀ r, r ∈ edges self ↔
            ∃ face k, face ∈ faces self ∧ (k < 4)%nat ∧ face_edge face k = Ok r).
  { intros r. rewrite Hedges, elem_of_np_unique. by apply edge_rows_of_faces. }
  rewrite Hedges at 1 2.
  split_and!; [apply np_unique_sorted|apply np_unique_NoDup|done|].
  intros a b (face & k & [n Hface]%list_elem_of_lookup_1 & _ & Hfe)%Hmem.
  apply face_edge_Ok in Hfe as (Hab & _ & Hb). split; [done|].
  apply forM_Ok in Hfs.
  destruct (Forall2_lookup_r _ _ _ _ _ Hfs Hface) as (blk & Hblk' & _).
  destruct (face_corner_lookup _ _ _ _ Hinit Hblk') as (face' & Hface' & HF).
  assert (face' = face) as -> by congruence.
  apply list_elem_of_lookup_1 in Hb as [m Hm].
  destruct (Forall2_lookup_l _ _ _ _ _ HF Hm) as (c & _ & Hc).
  by eapply lookup_lt_Some.
Qed.

(** X11.  As the class docstring says: [face_edges[k]] has exactly the
    keys ['s'], ['e'], ['n'], ['w'], and the value stored for side number
    [n] of that list is the index in [edges] of the pair
    [sorted([face[n], face[(n+1)%4]])] of [faces[k]]. *)
Theorem face_edges_index_edges (bs : list Block) (self : Multiblock) (k : nat) :
  Multiblock_init bs = Ok self →
  (k < length bs)%nat →
  ∃ face d, faces self !! k = Some face ∧ face_edges self !! k = Some d ∧
            (∀ s, is_Some (d !! s) ↔ s ∈ sides) ∧
            ∀ n side, sides !! n = Some side →
              ∃ e row, d !! side = Some e ∧ face_edge face n = Ok row ∧
                       edges self !! e = Some row.
Proof.
  intros Hinit [b Hb]%lookup_lt_is_Some.
  destruct (Multiblock_init_blocks _ _ Hinit k b Hb) as (face & d & Hface & Hd & Hconn).
  destruct Hconn as (c0 & c1 & c2 & c3 & f0 & f1 & f2 & f3 & es & ee & en & ew
                     & _ & -> & _ & _ & _ & _ & Hs & He & Hn & Hw & ->).
  exists [f0; f1; f2; f3], (edge_dict es ee en ew).
  split_and!; [done|done|apply edge_dict_face_dict|].
  apply row_index_lookup in Hs, He, Hn, Hw.
  intros [|[|[|[|n]]]] side [= <-]; eexists _, _;
    (split_and!; [reflexivity|reflexivity|done]).
Qed.

Lemma Multiblock_init_stored (bs : list Block) (self : Multiblock) :
  Multiblock_init bs = Ok self →
  blocks self = bs ∧ num_blocks self = length bs ∧
  shapes self = (λ b : Block, shape b.1) <$> bs.
Proof.
  unfold Multiblock_init. intros H. inv_ok. subst. simpl. split_and!; [done..|].
  apply list_fmap_ext. intros _ [X Y] _. simpl. by destruct (shape X).
Qed.

(** X12.  A constructed object keeps the block list it was given
    ([get_blocks]), [num_blocks] is its length, [get_shapes] lists the
    shape of each block's X array, and each of [faces], [face_edges],
    [interfaces] and [non_interfaces] has one entry per block. *)
Theorem per_block_attributes (bs : list Block) (self : Multiblock) :
  Multiblock_init bs = Ok self →
  get_blocks self = bs ∧ num_blocks self = length bs ∧
  get_shapes self = (λ b : Block, shape b.1) <$> bs ∧
  length (faces self) = length bs ∧
  length (face_edges self) = length bs ∧
  length (interfaces self) = length bs ∧
  length (non_interfaces self) = length bs.
Proof.
  intros Hinit.
  destruct (Multiblock_init_stored _ _ Hinit) as (? & ? & ?).
  destruct (Multiblock_init_face_edges _ _ Hinit) as [? _].
  destruct (Multiblock_init_classification _ _ Hinit) as (? & _ & _ & ? & _).
  apply Multiblock_init_inv in Hinit
    as (_ & _ & _ & cs & es & _ & _ & _ & Hfs%forM_Ok%Forall2_length & _).
  unfold get_blocks, get_shapes. split_and!; done.
Qed.

Lemma interface_at_valid (bs : list Block) (self : Multiblock) i s j s' :
  Multiblock_init bs = Ok self →
  interface_at (interfaces self) i s = Some (j, s') →
  i ≠ j ∧ (i < length bs)%nat ∧ (j < length bs)%nat ∧ s ∈ sides ∧ s' ∈ sides.
Proof.
  intros Hinit Hat.
  destruct (Multiblock_init_face_edges _ _ Hinit) as [Hlen Hfd].
  destruct (Multiblock_init_classification _ _ Hinit) as (_ & Hsound & _).
  destruct (Hsound _ _ _ _ Hat) as (Hne & e & Hi & Hj).
  split_and!; [done| | |by eapply edge_at_side..].
  - unfold edge_at in Hi. destruct (face_edges self !! i) eqn:H; [|done].
    apply lookup_lt_Some in H. lia.
  - unfold edge_at in Hj. destruct (face_edges self !! j) eqn:H; [|done].
    apply lookup_lt_Some in H. lia.
Qed.

(** X13.  An entry [interfaces[i][s] = (j, s')] of a constructed object
    never pairs a block with itself: [j] is the index of another block of
    the list, and [s] and [s'] are two of the four side labels. *)
Theorem interface_partner_valid (bs : list Block) (self : Multiblock)
    (i : nat) (s : string) (j : nat) (s' : string) :
  Multiblock_init bs = Ok self →
  interface_at (interfaces self) i s = Some (j, s') →
  i ≠ j ∧ (i < length bs)%nat ∧ (j < length bs)%nat ∧ s ∈ sides ∧ s' ∈ sides.
Proof. apply interface_at_valid. Qed.

(** ** Interfaces and geometry *)

Lemma corner_points_four {A : Type} (X Y : ndarray A) :
  ∃ c0 c1 c2 c3, corner_points X Y = [c0; c1; c2; c3].
Proof. unfold corner_points. eauto. Qed.

Lemma interface_at_geometry (bs : list Block) (self : Multiblock) i s j s' b b' :
  Multiblock_init bs = Ok self →
  interface_at (interfaces self) i s = Some (j, s') →
  bs !! i = Some b → bs !! j = Some b' →
  ∃ p p', side_corners (corner_points b.1 b.2) s = Some p ∧
          side_corners (corner_points b'.1 b'.2) s' = Some p' ∧
          same_corner_pair p p'.
Proof.
  intros Hinit Hat Hb Hb'.
  destruct (interface_at_valid _ _ _ _ _ _ Hinit Hat) as (_ & _ & _ & Hs & Hs').
  destruct (Multiblock_init_classification _ _ Hinit) as (_ & Hsound & _).
  destruct (Hsound _ _ _ _ Hat) as (_ & e & Hi & Hj).
  destruct (corner_points_four b.1 b.2) as (c0 & c1 & c2 & c3 & Hcp).
  destruct (corner_points_four b'.1 b'.2) as (c0' & c1' & c2' & c3' & Hcp').
  destruct (side_corners_total c0 c1 c2 c3 s Hs) as (ca & cb & Hp).
  destruct (side_corners_total c0' c1' c2' c3' s' Hs') as (ca' & cb' & Hp').
  rewrite <- Hcp in Hp. rewrite <- Hcp' in Hp'.
  destruct (edge_index_eq_iff _ _ _ _ _ _ _ _ _ _ Hinit Hb Hb' Hp Hp')
    as (e1 & e2 & He1 & He2 & Heq).
  exists (ca, cb), (ca', cb'). split_and!; [done..|]. apply Heq. congruence.
Qed.

(** X14.  A stored partner is geometrically right: if
    [interfaces[i][s] = (j, s')] then side [s] of block [i] and side [s']
    of block [j] join the same two corner points. *)
Theorem interface_partner_shares_corners (bs : list Block) (self : Multiblock)
    (i : nat) (s : string) (j : nat) (s' : string) (b b' : Block) :
  Multiblock_init bs = Ok self →
  interface_at (interfaces self) i s = Some (j, s') →
  bs !! i = Some b → bs !! j = Some b' →
  ∃ p p', side_corners (corner_points b.1 b.2) s = Some p ∧
          side_corners (corner_points b'.1 b'.2) s' = Some p' ∧
          same_corner_pair p p'.
Proof. apply interface_at_geometry. Qed.

(** X15.  [is_interface(i, s)] is [True] exactly when some other block of
    the list has a side joining the same two corner points as side [s] of
    block [i]. *)
Theorem is_interface_geometric (bs : list Block) (self : Multiblock) (i : nat)
    (b : Block) (s : string) (p : (Qc * Qc) * (Qc * Qc)) :
  Multiblock_init bs = Ok self →
  bs !! i = Some b →
  side_corners (corner_points b.1 b.2) s = Some p →
  is_interface self (Z.of_nat i) s = Ok true ↔
  ∃ j b' s' p', j ≠ i ∧ bs !! j = Some b' ∧
                side_corners (corner_points b'.1 b'.2) s' = Some p' ∧
                same_corner_pair p p'.
Proof.
  intros Hinit Hb Hp.
  destruct (Multiblock_init_classification _ _ Hinit) as (Hlen & Hsound & Hcompl & _).
  pose proof (lookup_lt_Some _ _ _ Hb) as Hi.
  rewrite is_interface_nat by lia. split.
  - intros [= [[j s'] Hat]%bool_decide_eq_true].
    destruct (interface_at_valid _ _ _ _ _ _ Hinit Hat) as (Hne & _ & Hj & _).
    apply lookup_lt_is_Some in Hj as [b' Hb'].
    destruct (interface_at_geometry _ _ _ _ _ _ _ _ Hinit Hat Hb Hb')
      as (q & p' & Hq & Hp' & Hsame).
    assert (q = p) as -> by congruence. exists j, b', s', p'. done.
  - intros (j & b' & s' & p' & Hne & Hb' & Hp' & Hsame).
    destruct (edge_index_eq_iff _ _ _ _ _ _ _ _ _ _ Hinit Hb Hb' Hp Hp')
      as (e1 & e2 & He1 & He2 & Heq).
    apply Heq in Hsame as <-. f_equal. apply bool_decide_eq_true.
    by apply (Hcompl i s j s' e1).
Qed.

Lemma classify_sides_filter (d : gmap string nat) (flat : list nat)
    (P : string → Prop) `{!∀ s, Decision (P s)} (l acc : list string) :
  (∀ s, s ∈ l → ∃ e, d !! s = Some e ∧ (P s ↔ e ∉ flat)) →
  foldM (λ acc side,
           e ← dict_getitem d side;
           if bool_decide (e ∈ flat) then Ok acc else Ok (acc ++ [side]))
        l acc = Ok (acc ++ filter P l).
Proof.
  revert acc. induction l as [|x l IH]; intros acc Hl; simpl.
  - by rewrite app_nil_r.
  - destruct (Hl x) as (e & He & HP); [set_solver|].
    rewrite (dict_getitem_Some _ _ _ He). simpl. case_bool_decide as Hflat.
    + rewrite filter_cons_False by tauto. apply IH. intros; apply Hl; set_solver.
    + rewrite filter_cons_True by tauto.
      replace (acc ++ x :: filter P l) with ((acc ++ [x]) ++ filter P l)
        by (by rewrite <- app_assoc).
      apply IH. intros; apply Hl; set_solver.
Qed.

Lemma non_interfaces_filter (bs : list Block) (self : Multiblock) (i : nat) :
  Multiblock_init bs = Ok self →
  (i < length bs)%nat →
  non_interfaces self !! i =
  Some (filter (λ s, interface_at (interfaces self) i s = None) sides).
Proof.
  intros Hinit Hi.
  destruct (Multiblock_init_face_edges _ _ Hinit) as [Hlen Hfd].
  destruct (Multiblock_init_classification _ _ Hinit) as (_ & Hsound & Hcompl & _).
  apply Multiblock_init_inv in Hinit
    as (_ & _ & _ & cs & es & _ & _ & _ & _ & _ & _ & _ & _ & Hnis).
  unfold find_non_interfaces in Hnis. apply forM_Ok in Hnis.
  destruct (lookup_lt_is_Some_2 (face_edges self) i) as [d Hd]; [lia|].
  assert (Hen : enumerate (face_edges self) !! i = Some (i, d))
    by (by apply lookup_enumerate).
  destruct (Forall2_lookup_l _ _ _ _ _ Hnis Hen) as (ni & Hni & Hbody).
  rewrite Hni. f_equal.
  assert (Hok : Ok ni = Ok ([] ++ filter (λ s, interface_at (interfaces self) i s = None)
                                     sides)); [|by injection Hok].
  rewrite <- Hbody.
  apply (classify_sides_filter d (other_edges i (face_edges self))
           (λ s, interface_at (interfaces self) i s = None)).
  intros s Hs. destruct (face_dict_lookup _ Hfd i d s Hd Hs) as [e He].
  exists e. split; [done|].
  assert (Hei : edge_at (face_edges self) i s = Some e)
    by (unfold edge_at; by rewrite Hd).
  rewrite elem_of_other_edges. split.
  - intros Hnone (j & s' & Hj & He').
    destruct (Hcompl i s j s' e) as [? ?]; [done..|]. congruence.
  - intros Hno. destruct (interface_at (interfaces self) i s) as [[j s']|] eqn:Hat;
      [|done].
    destruct (Hsound _ _ _ _ Hat) as (Hne & e' & H1 & H2).
    destruct Hno. exists j, s'. split; [done|]. congruence.
Qed.

(** X16.  [non_interfaces[i]] lists, in the order ['s','e','n','w'],
    exactly the sides of block [i] that are not keys of [interfaces[i]]. *)
Theorem non_interfaces_in_side_order (bs : list Block) (self : Multiblock)
    (i : nat) :
  Multiblock_init bs = Ok self →
  (i < length bs)%nat →
  non_interfaces self !! i =
  Some (filter (λ s, interface_at (interfaces self) i s = None) sides).
Proof. apply non_interfaces_filter. Qed.

(** X17.  A grid of one block has no interface: for every block the
    constructor accepts, [interfaces] is [[{}]] and [non_interfaces] is
    [[['s','e','n','w']]]. *)
Theorem single_block_all_boundary (b : Block) :
  well_shaped b →
  ∃ self, Multiblock_init [b] = Ok self ∧
          interfaces self = [∅] ∧ non_interfaces self = [["s"; "e"; "n"; "w"]].
Proof.
  intros Hws.
  destruct (Multiblock_init_total [b]) as [self Hinit]; [done|by constructor|].
  exists self. split; [done|].
  destruct (Multiblock_init_classification _ _ Hinit) as (Hlen & _ & _ & Hlen' & _).
  assert (Hnone : ∀ s, interface_at (interfaces self) 0 s = None).
  { intros s. destruct (interface_at (interfaces self) 0 s) as [[j s']|] eqn:Hat; [|done].
    destruct (interface_at_valid _ _ _ _ _ _ Hinit Hat) as (? & _ & ? & _).
    simpl in *. lia. }
  pose proof (non_interfaces_filter _ _ 0 Hinit) as Hni.
  destruct (interfaces self) as [|d [|]]; simpl in Hlen; try done.
  destruct (non_interfaces self) as [|ni [|]]; simpl in Hlen'; try done.
  split.
  - f_equal. apply map_eq. intros s. rewrite lookup_empty. apply (Hnone s).
  - simpl in Hni. specialize (Hni ltac:(lia)). injection Hni as ->.
    f_equal. unfold sides.
    rewrite !filter_cons_True by apply Hnone. done.
Qed.

(** ** Orientation of the exchanged data *)

Lemma flip_same_sense (s s' : string) :
  s ∈ sides → s' ∈ sides →
  bool_decide ((s', s) ∈ flip_pairs) = bool_decide (forward_side s' = forward_side s).
Proof.
  intros Hs Hs'.
  destruct (side_cases _ Hs) as [->|[->|[->| ->]]];
    destruct (side_cases _ Hs') as [->|[->|[->| ->]]]; by vm_compute.
Qed.

Lemma head_fmap_seq {A : Type} (f : nat → A) (n : nat) :
  (0 < n)%nat → head (f <$> seq 0 n) = Some (f 0%nat).
Proof. destruct n; [lia|done]. Qed.

Lemma last_fmap_seq {A : Type} (f : nat → A) (n : nat) :
  (0 < n)%nat → last (f <$> seq 0 n) = Some (f (n - 1)%nat).
Proof.
  intros Hn. rewrite last_lookup, length_fmap, length_seq, list_lookup_fmap.
  rewrite lookup_seq_lt by lia. simpl. f_equal. f_equal. lia.
Qed.

(** The first and last entry of a block's coordinate boundary along a
    side are the two corner points of the side: in the order of
    [side_corners] for South and East, in the opposite order for North
    and West. *)
Lemma boundary_ends (b : Block) (side : string) (p : (Qc * Qc) * (Qc * Qc)) :
  well_shaped b →
  side_corners (corner_points b.1 b.2) side = Some p →
  let first := if forward_side side then p.1 else p.2 in
  let final := if forward_side side then p.2 else p.1 in
  head (boundary_along b.1 side) = Some first.1 ∧
  head (boundary_along b.2 side) = Some first.2 ∧
  last (boundary_along b.1 side) = Some final.1 ∧
  last (boundary_along b.2 side) = Some final.2.
Proof.
  intros [Hsh [Hx Hy]] Hp. pose proof (side_corners_side _ _ _ Hp) as Hs.
  unfold boundary_along. rewrite <- Hsh.
  destruct (side_cases _ Hs) as [->|[->|[->| ->]]];
    unfold side_corners, corner_points in Hp; simpl in Hp;
    injection Hp as <-; simpl;
    rewrite !head_fmap_seq, !last_fmap_seq by done; rewrite <- ?Hsh; done.
Qed.

Lemma Multiblock_init_well_shaped (bs : list Block) (self : Multiblock) :
  Multiblock_init bs = Ok self → Forall well_shaped bs.
Proof.
  intros (_ & _ & Hsh & cs & es & Hcs & _)%Multiblock_init_inv.
  apply corners_of_blocks in Hcs as [_ Hcs].
  apply Forall_forall. intros b Hb. split.
  - by eapply Forall_forall in Hsh.
  - eapply Forall_forall in Hcs as [??]; done.
Qed.

Lemma interface_at_registered (self : Multiblock) (i : nat) (s : string)
    (partner : nat * string) :
  interface_at (interfaces self) i s = Some partner →
  registered self (Z.of_nat i) s partner.
Proof.
  unfold interface_at, registered. destruct (interfaces self !! i) as [d|] eqn:Hd;
    [simpl|done].
  intros Hp. exists d. split; [by apply py_getitem_nat | done].
Qed.

(** The coordinates a block receives for side [s] from its neighbour. *)
Lemma neighbor_coordinates (bs : list Block) (self : Multiblock) i s j s' b' :
  Multiblock_init bs = Ok self →
  interface_at (interfaces self) i s = Some (j, s') →
  bs !! j = Some b' →
  get_neighbor_boundary self b'.1 (Z.of_nat i) s
    = Ok (reorient s' s (boundary_along b'.1 s')) ∧
  get_neighbor_boundary self b'.2 (Z.of_nat i) s
    = Ok (reorient s' s (boundary_along b'.2 s')).
Proof.
  intros Hinit Hat Hb'.
  destruct (interface_at_valid _ _ _ _ _ _ Hinit Hat) as (_ & _ & _ & _ & Hs').
  pose proof (Multiblock_init_well_shaped _ _ Hinit) as Hws.
  eapply Forall_lookup_1 in Hws as [Hsh Hne]; [|done].
  assert (Hne2 : nonempty b'.2) by (unfold nonempty; by rewrite <- Hsh).
  rewrite !(get_neighbor_boundary_registered _ _ _ _ _ (interface_at_registered _ _ _ _ Hat)).
  simpl. by rewrite !get_function_boundary_cases.
Qed.

Lemma reorient_comm {A : Type} (a b : string) (l : list A) :
  reorient a b l = reorient b a l.
Proof.
  unfold reorient.
  assert (Hsym : (a, b) ∈ flip_pairs ↔ (b, a) ∈ flip_pairs).
  { unfold flip_pairs. rewrite !elem_of_cons, !elem_of_nil.
    split; intros H; repeat destruct H as [H|H]; try done;
      injection H as -> ->; tauto. }
  do 2 case_bool_decide; tauto.
Qed.

(** X18.  The two directions of an interface use one orientation rule:
    when [interfaces[i][s] = (j, s')] and [interfaces[j][s'] = (i, s)],
    data sent to block [i] is reversed exactly when data sent to block [j]
    is. *)
Theorem interface_orientation_symmetric {A : Type} (self : Multiblock)
    (i j : nat) (s s' : string) (F G : ndarray A) :
  interface_at (interfaces self) i s = Some (j, s') →
  interface_at (interfaces self) j s' = Some (i, s) →
  get_neighbor_boundary self F (Z.of_nat i) s
    = reorient s' s <$> get_function_boundary F s' ∧
  get_neighbor_boundary self G (Z.of_nat j) s'
    = reorient s' s <$> get_function_boundary G s.
Proof.
  intros Hij Hji.
  rewrite (get_neighbor_boundary_registered _ _ _ _ _ (interface_at_registered _ _ _ _ Hij)).
  rewrite (get_neighbor_boundary_registered _ _ _ _ _ (interface_at_registered _ _ _ _ Hji)).
  simpl. split; [done|].
  destruct (get_function_boundary G s); simpl; [|done]. by rewrite reorient_comm.
Qed.

Lemma neighbor_ends (bs : list Block) (self : Multiblock) i s j s' b b' p p' :
  Multiblock_init bs = Ok self →
  interface_at (interfaces self) i s = Some (j, s') →
  bs !! i = Some b → bs !! j = Some b' →
  side_corners (corner_points b.1 b.2) s = Some p →
  side_corners (corner_points b'.1 b'.2) s' = Some p' →
  ∃ x y x' y',
    get_boundary b.1 b.2 s = Ok (x, y) ∧
    get_neighbor_boundary self b'.1 (Z.of_nat i) s = Ok x' ∧
    get_neighbor_boundary self b'.2 (Z.of_nat i) s = Ok y' ∧
    (p' = (p.2, p.1) →
     head x' = head x ∧ head y' = head y ∧ last x' = last x ∧ last y' = last y) ∧
    (p' = p →
     head x' = last x ∧ head y' = last y ∧ last x' = head x ∧ last y' = head y).
Proof.
  intros Hinit Hat Hb Hb' Hp Hp'.
  destruct (interface_at_valid _ _ _ _ _ _ Hinit Hat) as (_ & _ & _ & Hs & Hs').
  pose proof (Multiblock_init_well_shaped _ _ Hinit) as Hws.
  pose proof (Forall_lookup_1 _ _ _ _ Hws Hb) as Hwb.
  pose proof (Forall_lookup_1 _ _ _ _ Hws Hb') as Hwb'.
  destruct (neighbor_coordinates _ _ _ _ _ _ _ Hinit Hat Hb') as [Hx' Hy'].
  assert (Hne2 : nonempty b.2)
    by (destruct Hwb as [Hsh ?]; unfold nonempty; by rewrite <- Hsh).
  exists (boundary_along b.1 s), (boundary_along b.2 s),
         (reorient s' s (boundary_along b'.1 s')),
         (reorient s' s (boundary_along b'.2 s')).
  split_and!; [|done|done| |].
  - rewrite get_boundary_eq.
    rewrite !get_function_boundary_cases by (done || by destruct Hwb). done.
  - intros ->.
    destruct (boundary_ends b s p Hwb Hp) as (H1 & H2 & H3 & H4).
    destruct (boundary_ends b' s' _ Hwb' Hp') as (H1' & H2' & H3' & H4').
    unfold reorient, np_flip. rewrite (flip_same_sense s s') by done.
    simpl in *.
    destruct (forward_side s), (forward_side s'); simpl in *;
      rewrite ?head_reverse, ?last_reverse; split_and!; congruence.
  - intros ->.
    destruct (boundary_ends b s p Hwb Hp) as (H1 & H2 & H3 & H4).
    destruct (boundary_ends b' s' _ Hwb' Hp') as (H1' & H2' & H3' & H4').
    unfold reorient, np_flip. rewrite (flip_same_sense s s') by done.
    simpl in *.
    destruct (forward_side s), (forward_side s'); simpl in *;
      rewrite ?head_reverse, ?last_reverse; split_and!; congruence.
Qed.

(** X19.  The flip rule aligns the end points of the shared edge when the
    two blocks run through it in opposite senses of their corner order (as
    two blocks of the same handedness do): the coordinate arrays a block
    receives from its neighbour start and end at the same points as its
    own boundary along that side. *)
Theorem neighbor_boundary_ends_aligned (bs : list Block) (self : Multiblock)
    (i : nat) (s : string) (j : nat) (s' : string) (b b' : Block)
    (p : (Qc * Qc) * (Qc * Qc)) :
  Multiblock_init bs = Ok self →
  interface_at (interfaces self) i s = Some (j, s') →
  bs !! i = Some b → bs !! j = Some b' →
  side_corners (corner_points b.1 b.2) s = Some p →
  side_corners (corner_points b'.1 b'.2) s' = Some (p.2, p.1) →
  ∃ x y x' y',
    get_boundary b.1 b.2 s = Ok (x, y) ∧
    get_neighbor_boundary self b'.1 (Z.of_nat i) s = Ok x' ∧
    get_neighbor_boundary self b'.2 (Z.of_nat i) s = Ok y' ∧
    head x' = head x ∧ head y' = head y ∧ last x' = last x ∧ last y' = last y.
Proof.
  intros Hinit Hat Hb Hb' Hp Hp'.
  destruct (neighbor_ends _ _ _ _ _ _ _ _ _ _ Hinit Hat Hb Hb' Hp Hp')
    as (x & y & x' & y' & ? & ? & ? & Hopp & _).
  exists x, y, x', y'. split_and!; [done..| | | |]; by apply Hopp.
Qed.

(** X20.  The constructor does not look at the sense in which a neighbour
    runs through the shared edge.  When both blocks run through it in the
    same sense of their corner order (one of them is mirrored), the arrays
    a block receives are end for end the other way round: they start where
    its own boundary ends. *)
Theorem neighbor_boundary_ends_swapped (bs : list Block) (self : Multiblock)
    (i : nat) (s : string) (j : nat) (s' : string) (b b' : Block)
    (p : (Qc * Qc) * (Qc * Qc)) :
  Multiblock_init bs = Ok self →
  interface_at (interfaces self) i s = Some (j, s') →
  bs !! i = Some b → bs !! j = Some b' →
  side_corners (corner_points b.1 b.2) s = Some p →
  side_corners (corner_points b'.1 b'.2) s' = Some p →
  ∃ x y x' y',
    get_boundary b.1 b.2 s = Ok (x, y) ∧
    get_neighbor_boundary self b'.1 (Z.of_nat i) s = Ok x' ∧
    get_neighbor_boundary self b'.2 (Z.of_nat i) s = Ok y' ∧
    head x' = last x ∧ head y' = last y ∧ last x' = head x ∧ last y' = head y.
Proof.
  intros Hinit Hat Hb Hb' Hp Hp'.
  destruct (neighbor_ends _ _ _ _ _ _ _ _ _ _ Hinit Hat Hb Hb' Hp Hp')
    as (x & y & x' & y' & ? & ? & ? & _ & Hsame).
  exists x, y, x', y'. split_and!; [done..| | | |]; by apply Hsame.
Qed.

(** ** Block indices and evaluated grid functions *)

(** X21.  [is_interface] takes block indices the way Python lists do: it
    raises [IndexError] exactly for an index outside [-len, len), and a
    negative index in range refers to block [len + block_idx]. *)
Theorem is_interface_index_semantics (self : Multiblock) (block_idx : Z)
    (side : string) :
  let len := Z.of_nat (length (interfaces self)) in
  (¬ (- len ≤ block_idx < len) → is_interface self block_idx side = Err IndexError) ∧
  (- len ≤ block_idx < len → ∃ r, is_interface self block_idx side = Ok r) ∧
  (- len ≤ block_idx < 0 →
   is_interface self block_idx side = is_interface self (len + block_idx) side).
Proof.
  simpl. unfold is_interface. split_and!.
  - intros Hout. destruct (py_getitem (interfaces self) block_idx) as [d|e] eqn:Hd.
    + apply py_getitem_Ok in Hd as (k & Hk%norm_index_Ok & _). lia.
    + by apply py_getitem_Err in Hd as [-> _].
  - intros Hin. destruct (py_getitem (interfaces self) block_idx) as [d|e] eqn:Hd.
    + simpl. destruct (dict_contains d side); eauto.
    + apply py_getitem_Err in Hd as [_ Hd]. lia.
  - intros Hneg. f_equal. unfold py_getitem, norm_index.
    rewrite (bool_decide_eq_false_2 (0 ≤ block_idx < _)) by lia.
    rewrite (bool_decide_eq_true_2 (- _ ≤ block_idx < 0)) by lia.
    rewrite (bool_decide_eq_true_2 (0 ≤ _ + block_idx < _)) by lia.
    done.
Qed.

(** X22.  If [f] returns, for every pair of coordinate arrays, an array of
    their shape, then [evaluate_function(f)] on a constructed object
    returns one grid function per block, of the shapes [get_shapes()]
    lists, and every registered interface can be served from them:
    [get_neighbor_boundary] of the partner's grid function returns an
    array. *)
Theorem evaluate_function_exchange {B : Type} (bs : list Block) (self : Multiblock)
    (f : ndarray Qc → ndarray Qc → result (ndarray B)) :
  Multiblock_init bs = Ok self →
  (∀ X Y, ∃ G, f X Y = Ok G ∧ shape G = shape X) →
  ∃ Fs, evaluate_function self f = Ok Fs ∧
        shape <$> Fs = get_shapes self ∧
        ∀ i s j s', interface_at (interfaces self) i s = Some (j, s') →
          ∃ Fj r, Fs !! j = Some Fj ∧
                  get_neighbor_boundary self Fj (Z.of_nat i) s = Ok r.
Proof.
  intros Hinit Hf.
  destruct (Multiblock_init_stored _ _ Hinit) as (Hblocks & _ & Hshapes).
  pose proof (Multiblock_init_well_shaped _ _ Hinit) as Hws.
  unfold evaluate_function, get_shapes. rewrite Hblocks, Hshapes.
  destruct (forM_total (λ b : Block, f b.1 b.2) bs) as [Fs HFs].
  { intros b _. destruct (Hf b.1 b.2) as (G & ? & _). eauto. }
  exists Fs. split; [done|]. apply forM_Ok in HFs.
  assert (Hsh : ∀ k b G, bs !! k = Some b → Fs !! k = Some G → shape G = shape b.1).
  { intros k b G Hb HG. destruct (Forall2_lookup_l _ _ _ _ _ HFs Hb) as (G' & HG' & HfG).
    destruct (Hf b.1 b.2) as (G'' & ? & ?). congruence. }
  split.
  - apply list_eq. intros k. rewrite !list_lookup_fmap.
    destruct (bs !! k) as [b|] eqn:Hb; simpl.
    + destruct (Forall2_lookup_l _ _ _ _ _ HFs Hb) as (G & HG & _).
      rewrite HG. simpl. f_equal. by eapply Hsh.
    + destruct (Fs !! k) as [G|] eqn:HG; [|done].
      destruct (Forall2_lookup_r _ _ _ _ _ HFs HG) as (b & ? & _). congruence.
  - intros i s j s' Hat.
    destruct (interface_at_valid _ _ _ _ _ _ Hinit Hat) as (_ & _ & Hj & _ & Hs').
    apply lookup_lt_is_Some in Hj as [b' Hb'].
    destruct (Forall2_lookup_l _ _ _ _ _ HFs Hb') as (Fj & HFj & _).
    exists Fj. eexists. split; [done|].
    rewrite (get_neighbor_boundary_registered _ _ _ _ _ (interface_at_registered _ _ _ _ Hat)).
    simpl. rewrite get_function_boundary_cases; [done|done|].
    eapply Forall_lookup_1 in Hws as [_ Hne]; [|done].
    unfold nonempty. by rewrite (Hsh j b' Fj).
Qed.

(** X24.  On a constructed object and for a grid function with at least
    one row and one column, [get_neighbor_boundary] returns an array
    exactly when [is_interface] returns [True] for the same arguments. *)
Theorem get_neighbor_boundary_iff_is_interface {A : Type} (bs : list Block)
    (self : Multiblock) (F : ndarray A) (block_idx : Z) (side : string) :
  Multiblock_init bs = Ok self →
  nonempty F →
  (∃ r, get_neighbor_boundary self F block_idx side = Ok r) ↔
  is_interface self block_idx side = Ok true.
Proof.
  intros Hinit HF. split.
  - intros [r Hr]. unfold get_neighbor_boundary in Hr.
    apply bind_Ok in Hr as (ok & Hok & Hr).
    apply bind_Ok in Hr as ([] & Hassert%py_assert_Ok & _). by subst.
  - intros Hif. unfold is_interface in Hif.
    apply bind_Ok in Hif as (d & Hd & Hc).
    unfold dict_contains in Hc. case_bool_decide as Hsome; [|done].
    destruct Hsome as [[j s'] Hp].
    assert (Hreg : registered self block_idx side (j, s')) by (by exists d).
    destruct (registered_interface_at _ _ _ _ Hreg) as [i Hi].
    destruct (partner_side_is_side _ _ _ _ _ _ Hinit Hi) as [_ Hs'].
    rewrite (get_neighbor_boundary_registered _ _ _ _ _ Hreg). simpl.
    rewrite get_function_boundary_cases by done. simpl. eauto.
Qed.

(** ** The further properties on concrete inputs *)

Lemma mirrored_blocks_init : Multiblock_init mirrored_blocks = Ok mirrored_grid.
Proof. vm_compute. reflexivity. Qed.

Lemma two_blocks_east : interface_at (interfaces two_block_grid) 0 "e" = Some (1%nat, "w").
Proof. vm_compute. reflexivity. Qed.

Lemma two_blocks_west : interface_at (interfaces two_block_grid) 1 "w" = Some (0%nat, "e").
Proof. vm_compute. reflexivity. Qed.

Lemma mirrored_east : interface_at (interfaces mirrored_grid) 0 "e" = Some (1%nat, "w").
Proof. vm_compute. reflexivity. Qed.

Lemma boundary_accessors_reject_side_witness :
  ("x" ∉ sides) ∧ get_boundary_slice F1 "x" = Err (AssertionError None).
Proof.
  assert (H : "x" ∉ sides) by (apply (bool_decide_unpack _); exact I).
  split; [exact H|].
  exact (proj2 (proj2 (boundary_accessors_reject_side F1 F1 "x" H))).
Defined.

Lemma get_function_boundary_outcome_witness :
  "n" ∈ sides ∧ get_function_boundary F1 "n" = Ok [12; 22; 32] ∧
  get_function_boundary empty_block.1 "w" = Err IndexError.
Proof.
  assert (Hn : "n" ∈ sides) by (apply (bool_decide_unpack _); exact I).
  assert (Hw : "w" ∈ sides) by (apply (bool_decide_unpack _); exact I).
  split_and!; [exact Hn| |].
  - exact (proj1 (get_function_boundary_outcome F1 "n" Hn)).
  - exact (proj1 (get_function_boundary_outcome empty_block.1 "w" Hw)).
Defined.

Lemma get_boundary_slice_indexes_boundary_witness :
  "e" ∈ sides ∧
  ∃ idx, get_boundary_slice F1 "e" = Ok idx ∧
         np_getitem_tuple F1 idx = Ok (np_array1 [30; 31; 32]).
Proof.
  assert (He : "e" ∈ sides) by (apply (bool_decide_unpack _); exact I).
  split; [exact He|].
  exact (get_boundary_slice_indexes_boundary F1 "e" He).
Defined.

Lemma Multiblock_init_errors_witness :
  Forall (λ b : Block, shape b.1 = shape b.2) [grid_block 3 3 0 1 0 1; empty_block] ∧
  Exists (λ b : Block, ¬ nonempty b.1) [grid_block 3 3 0 1 0 1; empty_block] ∧
  Multiblock_init [grid_block 3 3 0 1 0 1; empty_block] = Err IndexError.
Proof.
  assert (Hsh : Forall (λ b : Block, shape b.1 = shape b.2)
                       [grid_block 3 3 0 1 0 1; empty_block])
    by (repeat constructor).
  assert (Hbad : Exists (λ b : Block, ¬ nonempty b.1)
                        [grid_block 3 3 0 1 0 1; empty_block]).
  { apply Exists_cons_tl, Exists_cons_hd. intros [H _]. simpl in H. lia. }
  split_and!; [exact Hsh|exact Hbad|].
  exact (proj2 (Multiblock_init_errors _ Hsh) Hbad).
Defined.

Lemma corners_unique_sorted_witness :
  Multiblock_init two_blocks = Ok two_block_grid ∧ NoDup (corners two_block_grid).
Proof.
  split; [exact two_blocks_init|].
  exact (proj1 (proj2 (corners_unique_sorted two_blocks two_block_grid two_blocks_init))).
Defined.

Lemma faces_index_corners_witness :
  Multiblock_init two_blocks = Ok two_block_grid ∧
  ∃ face, faces two_block_grid !! 1%nat = Some face ∧ length face = 4%nat ∧
          Forall2 (λ f c, corners two_block_grid !! f = Some c) face
                  (corner_points (grid_block 3 3 1 1 0 1).1 (grid_block 3 3 1 1 0 1).2).
Proof.
  split; [exact two_blocks_init|].
  exact (faces_index_corners two_blocks two_block_grid 1 _ two_blocks_init eq_refl).
Defined.

Lemma edges_unique_sorted_witness :
  Multiblock_init two_blocks = Ok two_block_grid ∧ NoDup (edges two_block_grid).
Proof.
  split; [exact two_blocks_init|].
  exact (proj1 (proj2 (edges_unique_sorted two_blocks two_block_grid two_blocks_init))).
Defined.

Lemma face_edges_index_edges_witness :
  Multiblock_init two_blocks = Ok two_block_grid ∧
  ∃ face d, faces two_block_grid !! 0%nat = Some face ∧
            face_edges two_block_grid !! 0%nat = Some d ∧
            (∀ s, is_Some (d !! s) ↔ s ∈ sides) ∧
            ∀ n side, sides !! n = Some side →
              ∃ e row, d !! side = Some e ∧ face_edge face n = Ok row ∧
                       edges two_block_grid !! e = Some row.
Proof.
  split; [exact two_blocks_init|].
  apply (face_edges_index_edges two_blocks two_block_grid 0 two_blocks_init).
  simpl. lia.
Defined.

Lemma per_block_attributes_witness :
  Multiblock_init two_blocks = Ok two_block_grid ∧
  get_shapes two_block_grid = [(3, 3); (3, 3)]%nat.
Proof.
  split; [exact two_blocks_init|].
  exact (proj1 (proj2 (proj2 (per_block_attributes two_blocks two_block_grid
                                two_blocks_init)))).
Defined.

Lemma interface_partner_valid_witness :
  Multiblock_init two_blocks = Ok two_block_grid ∧
  interface_at (interfaces two_block_grid) 0 "e" = Some (1%nat, "w") ∧
  (0 ≠ 1)%nat.
Proof.
  split_and!; [exact two_blocks_init|exact two_blocks_east|].
  exact (proj1 (interface_partner_valid two_blocks two_block_grid 0 "e" 1 "w"
                  two_blocks_init two_blocks_east)).
Defined.

Lemma interface_partner_shares_corners_witness :
  Multiblock_init two_blocks = Ok two_block_grid ∧
  ∃ p p', side_corners (corner_points (grid_block 3 3 0 1 0 1).1
                                      (grid_block 3 3 0 1 0 1).2) "e" = Some p ∧
          side_corners (corner_points (grid_block 3 3 1 1 0 1).1
                                      (grid_block 3 3 1 1 0 1).2) "w" = Some p' ∧
          same_corner_pair p p'.
Proof.
  split; [exact two_blocks_init|].
  exact (interface_partner_shares_corners two_blocks two_block_grid 0 "e" 1 "w" _ _
           two_blocks_init two_blocks_east eq_refl eq_refl).
Defined.

Lemma block0_east_edge :
  side_corners (corner_points (grid_block 3 3 0 1 0 1).1 (grid_block 3 3 0 1 0 1).2) "e"
  = Some east_edge.
Proof. reflexivity. Qed.

Lemma two_blocks_shared_edge :
  side_corners (corner_points (grid_block 3 3 1 1 0 1).1 (grid_block 3 3 1 1 0 1).2) "w"
  = Some (east_edge.2, east_edge.1).
Proof.
  reflexivity.
Qed.

Lemma mirrored_shared_edge :
  side_corners (corner_points (grid_block 3 3 1 1 1 (-1)).1 (grid_block 3 3 1 1 1 (-1)).2) "w"
  = Some east_edge.
Proof.
  reflexivity.
Qed.

Lemma is_interface_geometric_witness :
  Multiblock_init two_blocks = Ok two_block_grid ∧
  is_interface two_block_grid 0 "e" = Ok true.
Proof.
  split; [exact two_blocks_init|].
  apply (is_interface_geometric two_blocks two_block_grid 0 _ "e" east_edge
           two_blocks_init eq_refl block0_east_edge).
  exists 1%nat, (grid_block 3 3 1 1 0 1), "w", (east_edge.2, east_edge.1).
  split_and!; [lia|reflexivity|exact two_blocks_shared_edge|].
  right. reflexivity.
Defined.

Lemma non_interfaces_in_side_order_witness :
  Multiblock_init two_blocks = Ok two_block_grid ∧
  non_interfaces two_block_grid !! 1%nat =
  Some (filter (λ s, interface_at (interfaces two_block_grid) 1 s = None) sides).
Proof.
  split; [exact two_blocks_init|].
  apply (non_interfaces_in_side_order two_blocks two_block_grid 1 two_blocks_init).
  simpl. lia.
Defined.

Lemma single_block_all_boundary_witness :
  well_shaped wrapped_block ∧
  ∃ self, Multiblock_init [wrapped_block] = Ok self ∧
          interfaces self = [∅] ∧ non_interfaces self = [["s"; "e"; "n"; "w"]].
Proof.
  split; [exact wrapped_block_well_shaped|].
  exact (single_block_all_boundary wrapped_block wrapped_block_well_shaped).
Defined.

Lemma interface_orientation_symmetric_witness :
  interface_at (interfaces two_block_grid) 0 "e" = Some (1%nat, "w") ∧
  interface_at (interfaces two_block_grid) 1 "w" = Some (0%nat, "e") ∧
  get_neighbor_boundary two_block_grid F1 1 "w"
    = reorient "w" "e" <$> get_function_boundary F1 "e".
Proof.
  split_and!; [exact two_blocks_east|exact two_blocks_west|].
  exact (proj2 (interface_orientation_symmetric two_block_grid 0 1 "e" "w" F1 F1
                  two_blocks_east two_blocks_west)).
Defined.

Lemma neighbor_boundary_ends_aligned_witness :
  Multiblock_init two_blocks = Ok two_block_grid ∧
  ∃ x y x' y',
    get_boundary (grid_block 3 3 0 1 0 1).1 (grid_block 3 3 0 1 0 1).2 "e" = Ok (x, y) ∧
    get_neighbor_boundary two_block_grid (grid_block 3 3 1 1 0 1).1 0 "e" = Ok x' ∧
    get_neighbor_boundary two_block_grid (grid_block 3 3 1 1 0 1).2 0 "e" = Ok y' ∧
    head x' = head x ∧ head y' = head y ∧ last x' = last x ∧ last y' = last y.
Proof.
  split; [exact two_blocks_init|].
  exact (neighbor_boundary_ends_aligned two_blocks two_block_grid 0 "e" 1 "w" _ _
           east_edge two_blocks_init two_blocks_east eq_refl eq_refl
           block0_east_edge two_blocks_shared_edge).
Defined.

Lemma neighbor_boundary_ends_swapped_witness :
  Multiblock_init mirrored_blocks = Ok mirrored_grid ∧
  ∃ x y x' y',
    get_boundary (grid_block 3 3 0 1 0 1).1 (grid_block 3 3 0 1 0 1).2 "e" = Ok (x, y) ∧
    get_neighbor_boundary mirrored_grid (grid_block 3 3 1 1 1 (-1)).1 0 "e" = Ok x' ∧
    get_neighbor_boundary mirrored_grid (grid_block 3 3 1 1 1 (-1)).2 0 "e" = Ok y' ∧
    head x' = last x ∧ head y' = last y ∧ last x' = head x ∧ last y' = head y.
Proof.
  split; [exact mirrored_blocks_init|].
  exact (neighbor_boundary_ends_swapped mirrored_blocks mirrored_grid 0 "e" 1 "w" _ _
           east_edge mirrored_blocks_init mirrored_east eq_refl eq_refl
           block0_east_edge mirrored_shared_edge).
Defined.

Lemma evaluate_function_exchange_witness :
  Multiblock_init two_blocks = Ok two_block_grid ∧
  ∃ Fs, evaluate_function two_block_grid (λ X _, Ok X) = Ok Fs ∧
        shape <$> Fs = get_shapes two_block_grid ∧
        ∀ i s j s', interface_at (interfaces two_block_grid) i s = Some (j, s') →
          ∃ Fj r, Fs !! j = Some Fj ∧
                  get_neighbor_boundary two_block_grid Fj (Z.of_nat i) s = Ok r.
Proof.
  split; [exact two_blocks_init|].
  apply (evaluate_function_exchange two_blocks two_block_grid (λ X _, Ok X)
           two_blocks_init).
  intros X Y. exists X. split; reflexivity.
Defined.

Lemma Multiblock_init_error_kinds_witness :
  Multiblock_init ([] : list Block) = Err ValueError ∧
  ((ValueError = AssertionError None ∧
    Exists (λ b : Block, shape b.1 ≠ shape b.2) []) ∨
   (ValueError = ValueError ∧ ([] : list Block) = []) ∨
   (ValueError = IndexError ∧ Forall (λ b : Block, shape b.1 = shape b.2) [] ∧
    Exists (λ b : Block, ¬ nonempty b.1) [])).
Proof.
  split; [reflexivity|].
  exact (Multiblock_init_error_kinds [] ValueError eq_refl).
Defined.

Lemma get_neighbor_boundary_iff_is_interface_witness :
  Multiblock_init two_blocks = Ok two_block_grid ∧ nonempty F1 ∧
  ((∃ r, get_neighbor_boundary two_block_grid F1 0 "e" = Ok r) ↔
   is_interface two_block_grid 0 "e" = Ok true).
Proof.
  split_and!; [exact two_blocks_init|exact F1_nonempty|].
  exact (get_neighbor_boundary_iff_is_interface two_blocks two_block_grid F1 0 "e"
           two_blocks_init F1_nonempty).
Defined.
